(** * loopback-discovery: the discoverer (lib/discoverer.js)

    A shallow embedding of the [Discoverer] object of lib/discoverer.js and
    the properties of its registry update, its model persistence and its
    discovery run.

    Conventions of the embedding.
    - A JavaScript object used as a record or as a dictionary is an
      association list in enumeration order ([obj]); keys are taken not to
      be canonical array indices, so a new key goes to the end.
    - In-place mutation is explicit state passing: every operation returns
      the objects it mutated together with its result.
    - A Node-style callback [cb(err, value)] is the value [Callback];
      [process.exit] and exceptions are the abrupt completions of
      [Completion].
    - The global objects are no part of the state: [Object.prototype] is
      taken as Node leaves it, and a write that lands on it or on one of its
      functions is not followed.
    - Console output is not modelled, nor are [loadModelConfiguration] and
      [saveModelConfiguration]: the registry is taken as loaded.
    - Models, properties and settings are records of the fields the code
      reads, each with the list of its other fields. *)

From Stdlib Require Import ZArith Ascii String.
From stdpp Require Import base option list strings gmap.

Local Open Scope string_scope.
Local Open Scope list_scope.

(** ** JavaScript data *)

(** JSON data, as [JSON.parse] returns it and [JSON.stringify] prints it. *)
#[local] Unset Elimination Schemes.
Inductive json : Type :=
| JNull
| JBool (b : bool)
| JNum (n : Z)
| JStr (s : string)
| JArr (items : list json)
| JObj (fields : list (string * json)).
#[local] Set Elimination Schemes.

(** ToBoolean on JSON data. *)
Definition truthy (v : json) : bool :=
  match v with
  | JNull => false
  | JBool b => b
  | JNum n => negb (Z.eqb n 0)
  | JStr s => negb (String.eqb s "")
  | JArr _ | JObj _ => true
  end.

(** An object as the ordered list of its own enumerable properties. *)
Definition obj (A : Type) : Type := list (string * A).

Section Objects.
Context {A : Type}.

(** [o[k]]; [None] is [undefined]. *)
Fixpoint obj_get (k : string) (o : obj A) : option A :=
  match o with
  | [] => None
  | (k', v) :: o' => if decide (k = k') then Some v else obj_get k o'
  end.

(** [o[k] = v]: an existing key keeps its place, a new key is appended. *)
Fixpoint obj_set (k : string) (v : A) (o : obj A) : obj A :=
  match o with
  | [] => [(k, v)]
  | (k', v') :: o' =>
      if decide (k = k') then (k, v) :: o' else (k', v') :: obj_set k v o'
  end.

(** [delete o[k]]. *)
Fixpoint obj_delete (k : string) (o : obj A) : obj A :=
  match o with
  | [] => []
  | (k', v') :: o' =>
      if decide (k = k') then obj_delete k o' else (k', v') :: obj_delete k o'
  end.

(** [Object.keys(o)], also the order in which [for (k in o)] visits. *)
Definition obj_keys (o : obj A) : list string := o.*1.

Definition obj_has (k : string) (o : obj A) : bool :=
  bool_decide (is_Some (obj_get k o)).
End Objects.

(** [String.prototype.toLowerCase], on the ASCII range. *)
Definition lower_ascii (c : ascii) : ascii :=
  let n := nat_of_ascii c in
  if (65 <=? n)%nat && (n <=? 90)%nat then ascii_of_nat (n + 32) else c.

Fixpoint toLowerCase (s : string) : string :=
  match s with
  | EmptyString => EmptyString
  | String c s' => String (lower_ascii c) (toLowerCase s')
  end.

(** [Array.prototype.join]. *)
Fixpoint join (sep : string) (l : list string) : string :=
  match l with
  | [] => ""
  | [x] => x
  | x :: l' => x +:+ sep +:+ join sep l'
  end.

(** ** Errors, completions and callbacks *)

Inductive JsError : Type :=
| Error (message : string)
| TypeError (message : string)
| SyntaxError (message : string)
| SystemError (code : string) (path : string).

(** How a piece of code ends: normally, by a thrown exception, or by
    [process.exit(code)]. *)
Inductive Completion (A : Type) : Type :=
| Normal (a : A)
| Throw (e : JsError)
| Exit (code : Z).
Arguments Normal {A} a.
Arguments Throw {A} e.
Arguments Exit {A} code.

(** The arguments of a Node-style callback: [cb(err)] or [cb(null, a)]. *)
Inductive Callback (A : Type) : Type :=
| CbErr (e : JsError)
| CbOk (a : A).
Arguments CbErr {A} e.
Arguments CbOk {A} a.

(** A state monad with abrupt completions: the state holds the objects the
    code mutates. After [Throw] the state is the one at the throw. *)
Definition M (S A : Type) : Type := S -> Completion A * S.

#[export] Instance M_ret {S} : MRet (M S) := fun A a s => (Normal a, s).
#[export] Instance M_bind {S} : MBind (M S) := fun A B f m s =>
  match m s with
  | (Normal a, s') => f a s'
  | (Throw e, s') => (Throw e, s')
  | (Exit c, s') => (Exit c, s')
  end.

Definition gets {S A} (f : S -> A) : M S A := fun s => (Normal (f s), s).
Definition modify {S} (f : S -> S) : M S unit := fun s => (Normal tt, f s).
Definition throw {S A} (e : JsError) : M S A := fun s => (Throw e, s).
Definition process_exit {S A} (code : Z) : M S A := fun s => (Exit code, s).

(** [try { body; } catch (err) { handler(err) }]: [process.exit] is not
    caught. *)
Definition try_catch {S A} (body : M S A) (handler : JsError -> M S A) : M S A :=
  fun s =>
    match body s with
    | (Throw e, s') => handler e s'
    | r => r
    end.

(** [for (var p in target) body]: the keys are those the object has when the
    loop starts, in order; a key deleted before its turn is skipped and a key
    added by the body is not visited. *)
Fixpoint for_keys {S A} (keys : list string) (target : S -> obj A)
    (body : string -> M S unit) : M S unit :=
  match keys with
  | [] => mret tt
  | p :: keys' =>
      fun s =>
        if obj_has p (target s)
        then (body p ;; for_keys keys' target body) s
        else for_keys keys' target body s
  end.

Definition for_in {S A} (target : S -> obj A) (body : string -> M S unit)
    : M S unit :=
  fun s => for_keys (obj_keys (target s)) target body s.

(** ** The data model *)

(** The [type] of a property. Discovery yields a constructor function
    ([String], [Number], [Date], ...), of which the code reads [name]; once
    saved it is a string. *)
Inductive TypeTag : Type :=
| TyFunction (fname : string)
| TyString (s : string).

(** [property.mysql]: the database column behind a property. *)
Record MysqlColumn : Type := {
  columnName : string;
  columnAttrs : obj json           (* dataType, dataLength, nullable, ... *)
}.

Module Property.
Record t : Type := mk {
  type : TypeTag;
  attrs : obj json;              (* required, length, precision, ... *)
  mysql : option MysqlColumn
}.
End Property.

(** [settings.mysql]: the database table behind a model. *)
Record MysqlTable : Type := {
  table : option string;
  tableAttrs : obj json            (* schema, ... *)
}.

Module Settings.
Record t : Type := mk {
  attrs : obj json;              (* idInjection, relations, ... *)
  mysql : option MysqlTable
}.
End Settings.

Record ModelDefinition : Type := {
  name : string;
  properties : obj Property.t;
  settings : Settings.t;
  isPublic : option json
}.

(** The registry of server/model-config.json: model name to
    [{dataSource, public}], and the [_meta] entry. *)
Definition Registry : Type := obj (obj json).

(** *** What [JSON.stringify] prints of a model *)

Definition opt_field {A} (k : string) (f : A -> json) (o : option A) : obj json :=
  match o with
  | Some a => [(k, f a)]
  | None => []
  end.

(** A function-valued property is left out by [JSON.stringify]. *)
Definition type_field (ty : TypeTag) : obj json :=
  match ty with
  | TyFunction _ => []
  | TyString s => [("type", JStr s)]
  end.

Definition column_to_json (c : MysqlColumn) : json :=
  JObj (("columnName", JStr (columnName c)) :: columnAttrs c).

Definition property_to_json (p : Property.t) : json :=
  JObj (type_field (Property.type p) ++ Property.attrs p
        ++ opt_field "mysql" column_to_json (Property.mysql p)).

Definition properties_to_json (ps : obj Property.t) : json :=
  JObj (prod_map id property_to_json <$> ps).

Definition table_to_json (t : MysqlTable) : json :=
  JObj (tableAttrs t ++ opt_field "table" JStr (table t)).

Definition settings_to_json (s : Settings.t) : json :=
  JObj (Settings.attrs s ++ opt_field "mysql" table_to_json (Settings.mysql s)).

Definition model_to_json (m : ModelDefinition) : json :=
  JObj ([("name", JStr (name m));
         ("properties", properties_to_json (properties m));
         ("settings", settings_to_json (settings m))]
        ++ opt_field "isPublic" id (isPublic m)).

(** ** The file system *)

(** A file holds JSON text, identified with the document it parses to, or
    text that [JSON.parse] rejects. *)
Inductive FileContent : Type :=
| JsonText (doc : json)
| RawText (raw : string).

Inductive Node : Type :=
| Directory
| File (content : FileContent).

(** [denied] holds the paths at which creating or writing fails. *)
Record FileSystem : Type := {
  nodes : gmap string Node;
  denied : gset string
}.

Definition fs_put (path : string) (n : Node) (fs : FileSystem) : FileSystem :=
  {| nodes := <[path := n]> (nodes fs); denied := denied fs |}.

(** [fs.readFileSync(path, 'utf8')]. *)
Definition readFileSync (path : string) : M FileSystem FileContent :=
  fun fs =>
    match nodes fs !! path with
    | Some (File c) => (Normal c, fs)
    | Some Directory => (Throw (SystemError "EISDIR" path), fs)
    | None => (Throw (SystemError "ENOENT" path), fs)
    end.

(** [fs.writeFileSync(path, text)]. *)
Definition writeFileSync (path : string) (c : FileContent) : M FileSystem unit :=
  fun fs =>
    if decide (path ∈ denied fs) then (Throw (SystemError "EACCES" path), fs)
    else match nodes fs !! path with
         | Some Directory => (Throw (SystemError "EISDIR" path), fs)
         | _ => (Normal tt, fs_put path (File c) fs)
         end.

(** [JSON.parse(text)]. *)
Definition JSON_parse {S} (c : FileContent) : M S json :=
  match c with
  | JsonText doc => mret doc
  | RawText _ => throw (SyntaxError "Unexpected token in JSON")
  end.

(** Modelled from the spec: [utils.fileExists] of lib/utils.js, which is not
    part of the sources at hand; the spec gives [exists(path) -> bool]. *)
Definition fileExists (path : string) (fs : FileSystem) : bool :=
  bool_decide (is_Some (nodes fs !! path)).

(** Modelled from the spec: [utils.mkDir] of lib/utils.js, which is not part
    of the sources at hand; the spec gives [ensureDirectory(path)], whose
    failure is an error. *)
Definition mkDir (path : string) : M FileSystem unit :=
  fun fs =>
    if decide (path ∈ denied fs) then (Throw (SystemError "EACCES" path), fs)
    else (Normal tt, fs_put path Directory fs).

(** ** The discoverer and its collaborators *)

(** A row of [discoverModelDefinitions]. *)
Module Table.
Record t : Type := mk {
  name : string;
  owner : option string
}.
End Table.

(** The options bag of [discoverModels]; an absent field is [None]. *)
Module Options.
Record t : Type := mk {
  appPath : option string;
  dataSource : option string;
  tablesList : option (list string);
  outputDir : option string;
  overwrite : option bool;
  schema : option string
}.
End Options.

(** A data source of the application and its connector. [database] is
    [settings && settings.database]; [discoverModelDefinitions] is [None]
    when the connector has no such function; of what
    [discoverAndBuildModels] yields, a model is kept as its [definition]. *)
Record DataSource : Type := {
  database : option string;
  discoverModelDefinitions : option (Options.t -> Callback (list Table.t));
  discoverAndBuildModels : string -> Callback (obj (option ModelDefinition))
}.

Record App : Type := {
  dataSources : obj DataSource
}.

Record Discoverer : Type := {
  app : option App;
  appPath : option string;
  modelConfig : option Registry;
  dsName : option string;
  dataSource : option DataSource
}.

(** [new Discoverer()]. *)
Definition Discoverer_new : Discoverer :=
  {| app := None; appPath := None; modelConfig := None; dsName := None;
     dataSource := None |}.

Definition set_modelConfig (c : Registry) (self : Discoverer) : Discoverer :=
  {| app := app self; appPath := appPath self; modelConfig := Some c;
     dsName := dsName self; dataSource := dataSource self |}.

Definition set_name (n : string) (m : ModelDefinition) : ModelDefinition :=
  {| name := n; properties := properties m; settings := settings m;
     isPublic := isPublic m |}.

Definition set_properties (ps : obj Property.t) (m : ModelDefinition)
    : ModelDefinition :=
  {| name := name m; properties := ps; settings := settings m;
     isPublic := isPublic m |}.

Definition set_type (ty : TypeTag) (p : Property.t) : Property.t :=
  Property.mk ty (Property.attrs p) (Property.mysql p).

(** [s] as a condition: the empty string is falsy. *)
Definition nonempty (s : string) : bool := negb (String.eqb s "").

(** [x || false] for a possibly absent [x]. *)
Definition or_false (x : option json) : json :=
  match x with
  | Some v => if truthy v then v else JBool false
  | None => JBool false
  end.

Definition string_or_null (x : option string) : json :=
  match x with
  | Some s => JStr s
  | None => JNull
  end.

(** Running a computation on one component of a pair of states. *)
Definition on_fst {S T A} (m : M S A) : M (S * T) A :=
  fun st => let (r, s') := m st.1 in (r, (s', st.2)).

Definition on_snd {S T A} (m : M T A) : M (S * T) A :=
  fun st => let (r, t') := m st.2 in (r, (st.1, t')).

(** *** Registry update: lines 72-91 *)

(** The names an object inherits from [Object.prototype]. Read on an object
    that has no such key of its own, each gives a function, and [__proto__]
    the prototype itself: a truthy value. *)
Definition inherited (k : string) : bool :=
  bool_decide
    (k ∈ ["constructor"; "toString"; "toLocaleString"; "valueOf";
          "hasOwnProperty"; "isPrototypeOf"; "propertyIsEnumerable";
          "__proto__"; "__defineGetter__"; "__defineSetter__";
          "__lookupGetter__"; "__lookupSetter__"]).

(** [this.modelConfig[model.name]] is the entry of the registry under that
    name, or else what the registry inherits under it. In the latter case
    the test of line 76 fails and lines 82-83 write on the inherited object:
    the registry gets no entry and the discoverer is left as it is. *)
Definition addModel (model : ModelDefinition) : M Discoverer unit :=
  self ← gets id;
  match modelConfig self with
  | None => throw (Error "Model configuration not loaded.")
  | Some config =>
      match obj_get (name model) config with
      | None =>
          if inherited (name model) then mret tt
          else
            modify (set_modelConfig
              (obj_set (name model)
                 [("dataSource", string_or_null (dsName self));
                  ("public", or_false (isPublic model))] config))
      | Some entry =>
          let entry1 := obj_set "dataSource" (string_or_null (dsName self)) entry in
          let entry2 := obj_set "public" (or_false (isPublic model)) entry1 in
          modify (set_modelConfig (obj_set (name model) entry2 config))
      end
  end.


(** *** Type-tag casing: lines 93-101 *)

(** Lines 98-99, the body of the loop. *)
Definition caseProperty (p : string) : M ModelDefinition unit :=
  model ← gets id;
  match obj_get p (properties model) with
  | None => throw (TypeError "Cannot read property 'type' of undefined")
  | Some prop =>
      match Property.type prop with
      | TyFunction fname =>
          modify (fun m =>
            set_properties
              (obj_set p (set_type (TyString (toLowerCase fname)) prop)
                 (properties m)) m)
      | TyString _ =>
          (* a string has no [name]: [undefined.toLowerCase()] *)
          throw (TypeError "Cannot read property 'toLowerCase' of undefined")
      end
  end.

Definition casePropertiesDataType : M ModelDefinition unit :=
  for_in properties caseProperty.

(** *** Saving a model: lines 103-164 *)

(** Lines 105-113: the table name of the database wins over the discovered
    model name. *)
Definition forceTableName : M ModelDefinition unit :=
  model ← gets id;
  match Settings.mysql (settings model) with
  | Some my =>
      match table my with
      | Some t =>
          if nonempty t && negb (bool_decide (name model = t))
          then modify (set_name t)
          else mret tt
      | None => mret tt
      end
  | None => mret tt
  end.

(** Lines 115-141, the body of the loop: a property without [mysql] ends
    the process; a property whose key is not its column name moves under
    the column name. *)
Definition rekeyProperty (p : string) : M ModelDefinition unit :=
  model ← gets id;
  match obj_get p (properties model) with
  | None => throw (TypeError "Cannot read property 'mysql' of undefined")
  | Some prop =>
      match Property.mysql prop with
      | None => process_exit 1
      | Some my =>
          let columnName := columnName my in
          if bool_decide (p ≠ columnName)
          then modify (fun m =>
                 set_properties
                   (obj_delete p (obj_set columnName prop (properties m))) m)
          else mret tt
      end
  end.

(** Lines 114-142. *)
Definition rekeyProperties : M ModelDefinition unit :=
  for_in properties rekeyProperty.

(** Lines 105-142: what [saveModel] does to the model before it looks at the
    file. *)
Definition reconcile : M ModelDefinition unit :=
  forceTableName ;; rekeyProperties.

(** Line 152: [original.properties = model.properties] on what
    [JSON.parse] returned. [null] throws; a primitive ignores the
    assignment, the module not being in strict mode; on an array it makes a
    property that [JSON.stringify] does not print. *)
Definition assign_properties {S} (original : json) (props : json) : M S json :=
  match original with
  | JNull => throw (TypeError "Cannot set property 'properties' of null")
  | JObj fields => mret (JObj (obj_set "properties" props fields))
  | other => mret other
  end.

(** *** Library calls of the discovery run *)

(** [arr.indexOf(x)]; [None] is [-1]. *)
Fixpoint indexOf (x : string) (arr : list string) : option nat :=
  match arr with
  | [] => None
  | y :: arr' => if decide (x = y) then Some 0 else S <$> indexOf x arr'
  end.

(** [arr.splice(idx, 1)], as it leaves [arr]. *)
Definition splice1 (idx : nat) (arr : list string) : list string :=
  delete idx arr.

(** [async.mapSeries(arr, iterator, callback)]: the arguments of the final
    callback. At an error the iteration stops; the results so far are handed
    over with the slot of the failing item left [undefined]. *)
Fixpoint mapSeries {S A B} (undefined : B) (arr : list A)
    (iterator : A -> M S (Callback B)) : M S (option JsError * list B) :=
  match arr with
  | [] => mret (None, [])
  | x :: arr' =>
      r ← iterator x;
      match r with
      | CbErr err => mret (Some err, [undefined])
      | CbOk v =>
          rest ← mapSeries undefined arr' iterator;
          mret (rest.1, v :: rest.2)
      end
  end.

(** [async.eachSeries(arr, iterator, callback)]: the items as the iterator
    leaves them, and the error given to the final callback. The iteration
    stops at the first error. *)
Fixpoint eachSeries {S A R} (arr : list A)
    (iterator : A -> M S (A * Callback R)) : M S (list A * option JsError) :=
  match arr with
  | [] => mret ([], None)
  | x :: arr' =>
      r ← iterator x;
      match r.2 with
      | CbErr err => mret (r.1 :: arr', Some err)
      | CbOk _ =>
          rest ← eachSeries arr' iterator;
          mret (r.1 :: rest.1, rest.2)
      end
  end.

(** Lines 195-203: [tables.filter(...)] with the splice of its callback; the
    value is the tables kept and the allow-list as the filter leaves it. *)
Fixpoint filterTables (tables : list Table.t) (tablesList : list string)
    : list Table.t * list string :=
  match tables with
  | [] => ([], tablesList)
  | t :: tables' =>
      match indexOf (Table.name t) tablesList with
      | None => filterTables tables' tablesList
      | Some idx =>
          let r := filterTables tables' (splice1 idx tablesList) in
          (t :: r.1, r.2)
      end
  end.

(** The objects a discovery run can change. *)
Record World : Type := {
  this : Discoverer;
  opts : Options.t;
  disk : FileSystem
}.

Definition on_this {A} (m : M Discoverer A) : M World A :=
  fun w => let (r, d) := m (this w) in
           (r, {| this := d; opts := opts w; disk := disk w |}).

Definition on_disk {A} (m : M FileSystem A) : M World A :=
  fun w => let (r, fs) := m (disk w) in
           (r, {| this := this w; opts := opts w; disk := fs |}).

Definition update_opts (f : Options.t -> Options.t) (w : World) : World :=
  {| this := this w; opts := f (opts w); disk := disk w |}.

Definition set_opts (f : Options.t -> Options.t) : M World unit :=
  modify (update_opts f).

Definition set_schema (v : option string) (o : Options.t) : Options.t :=
  Options.mk (Options.appPath o) (Options.dataSource o) (Options.tablesList o)
    (Options.outputDir o) (Options.overwrite o) v.

Definition set_tablesList (l : list string) (o : Options.t) : Options.t :=
  Options.mk (Options.appPath o) (Options.dataSource o) (Some l)
    (Options.outputDir o) (Options.overwrite o) (Options.schema o).

(** A possibly absent string as a condition. *)
Definition given (x : option string) : option string :=
  match x with
  | Some s => if nonempty s then Some s else None
  | None => None
  end.

Section Discoverer.
(** [path.join] of Node, and [require] as [setApp] uses it: [None] when
    it throws. *)
Variable path_join : string -> string -> string.
Variable require : string -> option App.

(** *** Binding: lines 17-47 *)

Definition setApp (appPath : string) : M Discoverer unit :=
  match require (path_join appPath "server/server.js") with
  | Some a =>
      modify (fun self =>
        {| app := Some a; appPath := Some appPath;
           modelConfig := modelConfig self; dsName := dsName self;
           dataSource := dataSource self |})
  | None => throw (Error ("No loopback application found at: " +:+ appPath))
  end.

Fixpoint setDataSource_loop (dsName : string) (sources : obj DataSource)
    : M Discoverer unit :=
  match sources with
  | [] => throw (Error "Datasource not found in application.")
  | (src, ds) :: sources' =>
      if bool_decide (toLowerCase dsName = toLowerCase src) then
        match discoverModelDefinitions ds with
        | None => throw (Error "Data source connector do not support discovery.")
        | Some _ =>
            modify (fun self =>
              {| app := app self; appPath := appPath self;
                 modelConfig := modelConfig self; dsName := Some dsName;
                 dataSource := Some ds |})
        end
      else setDataSource_loop dsName sources'
  end.

Definition setDataSource (dsName : string) : M Discoverer unit :=
  if negb (nonempty dsName) then throw (Error "Invalid data source.")
  else
    self ← gets id;
    match app self with
    | None => throw (Error "Application not set.")
    | Some a => setDataSource_loop dsName (dataSources a)
    end.

(** The body of the [try] of [saveModel]; its value is the second argument
    of the callback, [None] for [null]. *)
Definition saveModel_try (modelsPath : string) (overwrite : option bool)
    : M (ModelDefinition * FileSystem) (option json) :=
  on_fst reconcile ;;
  model ← gets fst;
  let modelPath := path_join modelsPath (name model +:+ ".json") in
  exist ← gets (fun st => fileExists modelPath st.2);
  if negb exist || bool_decide (overwrite = Some true) then
    on_fst casePropertiesDataType ;;
    model ← gets fst;
    written ←
      (if exist then
         text ← on_snd (readFileSync modelPath);
         original ← JSON_parse text;
         assign_properties original (properties_to_json (properties model))
       else mret (model_to_json model));
    on_snd (writeFileSync modelPath (JsonText written)) ;;
    mret (Some written)
  else mret None.

(** [saveModel(modelsPath, model, overwrite, cb)]: the value is the model
    object as the call leaves it, and the arguments given to [cb]. An
    [undefined] model fails at [model.settings]. *)
Definition saveModel (modelsPath : string) (model : option ModelDefinition)
    (overwrite : option bool)
    : M FileSystem (option ModelDefinition * Callback (option json)) :=
  fun fs =>
    match model with
    | None =>
        (Normal (None, CbErr (TypeError "Cannot read property 'settings' of undefined")), fs)
    | Some m =>
        match saveModel_try modelsPath overwrite (m, fs) with
        | (Normal r, (m', fs')) => (Normal (Some m', CbOk r), fs')
        | (Throw e, (m', fs')) => (Normal (Some m', CbErr e), fs')
        | (Exit c, (_, fs')) => (Exit c, fs')
        end
    end.

(** *** The discovery run: lines 166-247 *)

(** Lines 211-219: the iterator of [async.mapSeries]. *)
Definition buildModel (ds : DataSource) (t : Table.t)
    : M World (Callback (option ModelDefinition)) :=
  match discoverAndBuildModels ds (Table.name t) with
  | CbErr err => mret (CbErr err)
  | CbOk models =>
      match models with
      | [] => throw (TypeError "Cannot read property 'definition' of undefined")
      | (modelName, definition) :: _ => mret (CbOk definition)
      end
  end.

(** Lines 220-244: the final callback of [async.mapSeries]. Its [err] is
    not looked at. *)
Definition persistModels (err : option JsError)
    (models : list (option ModelDefinition))
    : M World (Callback (list (option ModelDefinition))) :=
  self ← gets this;
  options ← gets opts;
  match appPath self with
  | None => throw (TypeError "Path must be a string. Received null")
  | Some root =>
      let modelsPath :=
        match given (Options.outputDir options) with
        | Some dir => path_join root dir
        | None => path_join root "common/models"
        end in
      exist ← gets (fun w => fileExists modelsPath (disk w));
      made ←
        (if (exist : bool) then mret true
         else try_catch (on_disk (mkDir modelsPath) ;; mret true)
                (fun _ => mret false) : M World bool);
      if (made : bool) then
        r ← on_disk (eachSeries models (fun model =>
               saveModel modelsPath model (Options.overwrite options)));
        match r.2 with
        | Some err => mret (CbErr err)
        | None => mret (CbOk r.1)
        end
      else mret (CbErr (Error "Unable to create models folder"))
  end.

(** Lines 190-246: the callback of [discoverModelDefinitions]. *)
Definition discovered (ds : DataSource) (r : Callback (list Table.t))
    : M World (Callback (list (option ModelDefinition))) :=
  match r with
  | CbErr err => mret (CbErr err)
  | CbOk tables =>
      options ← gets opts;
      match Options.tablesList options with
      | Some tablesList =>
          let f := filterTables tables tablesList in
          set_opts (set_tablesList f.2) ;;
          if (0 <? length f.2)%nat
          then mret (CbErr (Error ("Tables not found: " +:+ join ", " f.2)))
          else
            r ← mapSeries None f.1 (buildModel ds);
            persistModels r.1 r.2
      | None =>
          r ← mapSeries None tables (buildModel ds);
          persistModels r.1 r.2
      end
  end.

(** Lines 174-183: the [try] that binds the application and the data
    source named in the options; the value is the error caught. *)
Definition bindOptions : M World (option JsError) :=
  options ← gets opts;
  try_catch
    (match given (Options.appPath options) with
     | Some appPath => on_this (setApp appPath)
     | None => mret tt
     end ;;
     match given (Options.dataSource options) with
     | Some dsName => on_this (setDataSource dsName)
     | None => mret tt
     end ;;
     mret None)
    (fun err => mret (Some err)).

(** [discoverModels(options, cb)]: the value is what [cb] is called with;
    [Throw] is an exception that nothing catches. *)
Definition discoverModels : M World (Callback (list (option ModelDefinition))) :=
  bound ← bindOptions;
  match bound with
  | Some err => mret (CbErr err)
  | None =>
      self ← gets this;
      match dataSource self with
      | None => mret (CbErr (Error "Data source not set."))
      | Some ds =>
          set_opts (set_schema (database ds)) ;;
          options ← gets opts;
          match discoverModelDefinitions ds with
          | None => throw (TypeError "discoverModelDefinitions is not a function")
          | Some discover => discovered ds (discover options)
          end
      end
  end.
End Discoverer.


(** ** Notions used in the statements *)

(** The column name a property declares. *)
Definition column_of (prop : Property.t) : option string :=
  columnName <$> Property.mysql prop.

(** Property [k] of [props] declares the column name [c], which is not its
    key: the loop of [saveModel] moves it. *)
Definition moved (props : obj Property.t) (k : string) (prop : Property.t)
    (c : string) : Prop :=
  obj_get k props = Some prop /\ column_of prop = Some c /\ c ≠ k.

(** No property is moved onto a key of the model or onto the column name of
    another moved property. *)
Definition collision_free (props : obj Property.t) : Prop :=
  (forall k prop c, moved props k prop c -> obj_get c props = None)
  /\ (forall k1 prop1 k2 prop2 c,
        moved props k1 prop1 c -> moved props k2 prop2 c -> k1 = k2).

(** The state of the loop over [props0] when the keys [ks] are still to be
    visited: these are untouched, every other property sits under its
    column name. *)
Definition settled (props0 : obj Property.t) (ks : list string)
    (cur : obj Property.t) : Prop :=
  (forall q, q ∈ ks -> obj_get q cur = obj_get q props0)
  /\ (forall k prop c,
        obj_get k props0 = Some prop -> k ∉ ks -> column_of prop = Some c ->
        if decide (c = k) then obj_get k cur = Some prop
        else obj_get k cur = None /\ obj_get c cur = Some prop).

(** The properties of a written definition. *)
Definition persisted_properties (written : json) : obj json :=
  match written with
  | JObj fields =>
      match obj_get "properties" fields with
      | Some (JObj props) => props
      | _ => []
      end
  | _ => []
  end.


(** [casePropertiesDataType] on one property whose type is a function. *)
Definition lower_type (prop : Property.t) : Property.t :=
  match Property.type prop with
  | TyFunction fname => set_type (TyString (toLowerCase fname)) prop
  | TyString _ => prop
  end.

(** How often a name occurs in a list. *)
Definition occurrences (x : string) (l : list string) : nat :=
  length (filter (fun y => y = x) l).

(** A computation that leaves the options object as it found it. *)
Definition keeps_opts {A} (m : M World A) : Prop :=
  forall w, opts (m w).2 = opts w.

(** ** Sample data *)

(** [path.join] on plain segments. *)
Definition posix_join (a b : string) : string := a +:+ "/" +:+ b.

Definition column (c : string) : option MysqlColumn :=
  Some {| columnName := c; columnAttrs := [("dataType", JStr "varchar")] |}.

Definition discovered_property (ty : string) (c : option MysqlColumn)
    : Property.t :=
  Property.mk (TyFunction ty) [("required", JBool false)] c.

Definition discovered_model (n : string) (ps : obj Property.t)
    : ModelDefinition :=
  {| name := n; properties := ps;
     settings := Settings.mk [("idInjection", JBool false)] None;
     isPublic := None |}.

Definition empty_disk : FileSystem := {| nodes := ∅; denied := ∅ |}.

(** A table [customer] with the columns [id] and [firstName]. *)
Definition customer : ModelDefinition :=
  discovered_model "Customer"
    [("id", discovered_property "Number" (column "id"));
     ("firstname", discovered_property "String" (column "firstName"))].

(** [customer] after the renaming, and after the casing of its types. *)
Definition customer_renamed : ModelDefinition :=
  discovered_model "Customer"
    [("id", discovered_property "Number" (column "id"));
     ("firstName", discovered_property "String" (column "firstName"))].

Definition customer_cased : ModelDefinition :=
  discovered_model "Customer"
    [("id", set_type (TyString "number")
              (discovered_property "Number" (column "id")));
     ("firstName", set_type (TyString "string")
                     (discovered_property "String" (column "firstName")))].

(** A table with the columns [fooBar] and [foo_bar]. *)
Definition clash : ModelDefinition :=
  discovered_model "Clash"
    [("foobar", discovered_property "String" (column "fooBar"));
     ("fooBar", discovered_property "Number" (column "foo_bar"))].

(** A property without [mysql] under the key that an earlier property is
    moved onto. *)
Definition shadowed : ModelDefinition :=
  discovered_model "Shadowed"
    [("a", discovered_property "String" (column "b"));
     ("b", discovered_property "Number" None)].

(** A table without primary key: its column carries no [mysql]. *)
Definition keyless : ModelDefinition :=
  discovered_model "Keyless" [("note", discovered_property "String" None)].

(** A hand-edited definition file of [Customer]. *)
Definition customer_file : list (string * json) :=
  [("name", JStr "Customer");
   ("properties", JObj [("id", JObj [("type", JStr "number")])]);
   ("settings", JObj [("someCustomRule", JBool true)]);
   ("acls", JArr [])].

Definition disk_with (path : string) (content : FileContent) : FileSystem :=
  fs_put path (File content) empty_disk.

(** A disk on which the definition file of [Customer] exists. *)
Definition customer_disk : FileSystem :=
  disk_with "models/Customer.json" (JsonText (JObj customer_file)).

(** A disk on which a definition file of [Keyless] exists. *)
Definition keyless_disk : FileSystem :=
  disk_with "models/Keyless.json" (JsonText (JObj [("name", JStr "Keyless")])).


(** A data source that knows the given tables and builds the given model
    for each name. *)
Definition source (tables : list string)
    (build : string -> Callback (obj (option ModelDefinition))) : DataSource :=
  {| database := Some "shop";
     discoverModelDefinitions :=
       Some (fun _ => CbOk ((fun n => Table.mk n (Some "shop")) <$> tables));
     discoverAndBuildModels := build |}.

Definition no_app (path : string) : option App := None.

(** A discoverer bound to [ds] in the application at [app], called with an
    allow-list. *)
Definition bound_to (ds : DataSource) (tablesList : option (list string))
    (fs : FileSystem) : World :=
  {| this := {| app := Some {| dataSources := [("db", ds)] |};
                appPath := Some "app"; modelConfig := None;
                dsName := Some "db"; dataSource := Some ds |};
     opts := Options.mk None None tablesList None None None;
     disk := fs |}.

Definition build_customer (table : string)
    : Callback (obj (option ModelDefinition)) :=
  CbOk [("Customer", Some customer)].

Definition build_keyless (table : string)
    : Callback (obj (option ModelDefinition)) :=
  CbOk [("Keyless", Some keyless)].

(** Building [customer] works, building anything else fails. *)
Definition build_first_only (table : string)
    : Callback (obj (option ModelDefinition)) :=
  if bool_decide (table = "customer") then CbOk [("Customer", Some customer)]
  else CbErr (Error "connection lost").

(** A registry in which [Customer] is public. *)
Definition registry : Registry :=
  [("_meta", [("sources", JArr [JStr "../common/models"])]);
   ("Customer", [("dataSource", JStr "old"); ("public", JBool true)])].

Definition with_registry : Discoverer :=
  {| app := None; appPath := Some "app"; modelConfig := Some registry;
     dsName := Some "db"; dataSource := None |}.

Ltac run :=
  unfold mbind, M_bind, mret, M_ret, gets, modify, throw, process_exit,
    try_catch, on_fst, on_snd; simpl.

(** ** Saving the registry: lines 61-70 *)

(** What [JSON.stringify] prints of the registry. *)
Definition registry_to_json (config : Registry) : json :=
  JObj (prod_map id JObj <$> config).

Section ModelConfiguration.
(** [path.resolve] of Node. *)
Variable path_resolve : string -> string -> string.

Definition saveModelConfiguration : M (Discoverer * FileSystem) unit :=
  self ← gets fst;
  match given (appPath self) with
  | None => throw (Error "Application not set.")
  | Some root =>
      match modelConfig self with
      | None => throw (Error "Model configuration not loaded.")
      | Some config =>
          on_snd (writeFileSync (path_resolve root "server/model-config.json")
                    (JsonText (registry_to_json config)))
      end
  end.
End ModelConfiguration.

(** ** Further notions used in the statements *)

(** A key that reads as a canonical number ("0", "7", "42"): an object
    enumerates such keys first, in numeric order, wherever they were
    added. *)
Definition is_digit (c : ascii) : bool :=
  let n := nat_of_ascii c in (48 <=? n)%nat && (n <=? 57)%nat.

Fixpoint all_digits (s : string) : bool :=
  match s with
  | EmptyString => true
  | String c s' => is_digit c && all_digits s'
  end.

Definition array_index (k : string) : bool :=
  match k with
  | EmptyString => false
  | String c rest =>
      all_digits k && (negb (Ascii.eqb c "0") || String.eqb rest "")
  end.


(** The state [setDataSource] leaves when it binds [ds] under the name
    [dsName]. *)
Definition bind_source (dsName : string) (ds : DataSource) (self : Discoverer)
    : Discoverer :=
  {| app := app self; appPath := appPath self; modelConfig := modelConfig self;
     dsName := Some dsName; dataSource := Some ds |}.

(** Every property has a function for type. *)
Definition is_function (ty : TypeTag) : bool :=
  match ty with
  | TyFunction _ => true
  | TyString _ => false
  end.

Definition all_functions (props : obj Property.t) : bool :=
  forallb (fun kv => is_function (Property.type kv.2)) props.

(** The tables a run goes on with. *)
Definition surviving (tables : list Table.t) (tablesList : option (list string))
    : list Table.t :=
  match tablesList with
  | Some wanted => (filterTables tables wanted).1
  | None => tables
  end.

(** ** Further sample data *)

(** The model of the table [PaymentMethod], discovered as [Paymentmethod]. *)
Definition payment : ModelDefinition :=
  {| name := "Paymentmethod";
     properties := [("id", discovered_property "Number" (column "id"))];
     settings :=
       Settings.mk [("idInjection", JBool false)]
         (Some {| table := Some "PaymentMethod";
                  tableAttrs := [("schema", JStr "shop")] |});
     isPublic := None |}.

(** [payment] as a save leaves it. *)
Definition payment_cased : ModelDefinition :=
  {| name := "PaymentMethod";
     properties :=
       [("id", set_type (TyString "number")
                 (discovered_property "Number" (column "id")))];
     settings := settings payment;
     isPublic := None |}.

(** A model named like a function that every object inherits. *)
Definition constructor_model : ModelDefinition :=
  discovered_model "constructor"
    [("id", discovered_property "Number" (column "id"))].

(** An application with two data sources. *)
Definition shop_app : App :=
  {| dataSources :=
       [("memory", {| database := None; discoverModelDefinitions := None;
                      discoverAndBuildModels := build_customer |});
        ("ShopDB", source ["customer"] build_customer)] |}.

Definition with_app : Discoverer :=
  {| app := Some shop_app; appPath := Some "app"; modelConfig := None;
     dsName := None; dataSource := None |}.

(** A disk on which nothing can be made under [app]. *)
Definition locked_disk : FileSystem :=
  {| nodes := ∅; denied := {["app/common/models"]} |}.

Definition failing_source : DataSource :=
  {| database := Some "shop";
     discoverModelDefinitions := Some (fun _ => CbErr (Error "access denied"));
     discoverAndBuildModels := build_customer |}.

(** Case analysis of [moved] on a model given in full. *)
Ltac moved_inv H :=
  let Hget := fresh "Hget" in
  let Hcol := fresh "Hcol" in
  let Hne := fresh "Hne" in
  destruct H as (Hget & Hcol & Hne); simpl in Hget;
  repeat case_decide; simplify_eq; vm_compute in Hcol; simplify_eq.


(** * Properties *)

(** ** Objects *)

Section ObjectFacts.
Context {A : Type}.
Implicit Types (k : string) (v : A) (o : obj A).

Lemma obj_get_set k k' v o :
  obj_get k (obj_set k' v o) = if decide (k = k') then Some v else obj_get k o.
Proof.
  induction o as [|[k0 v0] o IH]; simpl.
  - repeat case_decide; congruence.
  - repeat (case_decide; simpl); try congruence.
Qed.

Lemma obj_get_set_eq k v o : obj_get k (obj_set k v o) = Some v.
Proof. rewrite obj_get_set. by case_decide. Qed.

Lemma obj_get_set_ne k k' v o :
  k ≠ k' -> obj_get k (obj_set k' v o) = obj_get k o.
Proof. intros. rewrite obj_get_set. by case_decide. Qed.

Lemma obj_get_delete k k' o :
  obj_get k (obj_delete k' o) = if decide (k = k') then None else obj_get k o.
Proof.
  induction o as [|[k0 v0] o IH]; simpl.
  - by case_decide.
  - repeat (case_decide; simpl); try congruence.
Qed.

Lemma obj_get_delete_ne k k' o :
  k ≠ k' -> obj_get k (obj_delete k' o) = obj_get k o.
Proof. intros. rewrite obj_get_delete. by case_decide. Qed.

Lemma obj_has_spec k o : obj_has k o = true <-> is_Some (obj_get k o).
Proof. unfold obj_has. by rewrite bool_decide_eq_true. Qed.

Lemma obj_get_is_Some k o : is_Some (obj_get k o) <-> k ∈ obj_keys o.
Proof.
  unfold obj_keys. induction o as [|[k0 v0] o IH]; simpl.
  - split; [intros [? ?]; done | intros H; inversion H].
  - rewrite elem_of_cons. case_decide; subst.
    + split; eauto.
    + rewrite IH. split; [auto | intros [?|?]; [congruence | done]].
Qed.

Lemma obj_get_None k o : obj_get k o = None <-> k ∉ obj_keys o.
Proof. rewrite <- obj_get_is_Some, eq_None_not_Some. done. Qed.

Lemma obj_get_elem_of k v o : obj_get k o = Some v -> (k, v) ∈ o.
Proof.
  induction o as [|[k0 v0] o IH]; simpl; [done|].
  case_decide; subst.
  - intros [= ->]. left.
  - intros. right. auto.
Qed.

Lemma obj_elem_of_get k v o :
  NoDup (obj_keys o) -> (k, v) ∈ o -> obj_get k o = Some v.
Proof.
  unfold obj_keys. induction o as [|[k0 v0] o IH]; simpl.
  - intros _ H. inversion H.
  - rewrite NoDup_cons, elem_of_cons. intros [Hk0 Hnd] [[= -> ->]|Hin].
    + by case_decide.
    + case_decide; subst; [|auto].
      exfalso. apply Hk0. apply list_elem_of_fmap. by exists (k0, v).
Qed.

Lemma obj_get_app k o1 o2 :
  obj_get k (o1 ++ o2) =
  match obj_get k o1 with Some v => Some v | None => obj_get k o2 end.
Proof.
  induction o1 as [|[k0 v0] o1 IH]; simpl; [done|]. by case_decide.
Qed.

Lemma obj_set_app_fresh k v v0 o1 o2 :
  k ∉ obj_keys o1 ->
  obj_set k v (o1 ++ (k, v0) :: o2) = o1 ++ (k, v) :: o2.
Proof.
  unfold obj_keys. induction o1 as [|[k1 v1] o1 IH]; simpl.
  - intros _. by case_decide.
  - rewrite not_elem_of_cons. intros [Hne Hnotin].
    case_decide; [done|]. by rewrite IH.
Qed.

Lemma obj_set_elem_of k v k' v' o :
  (k', v') ∈ obj_set k v o -> (k', v') = (k, v) \/ (k', v') ∈ o.
Proof.
  induction o as [|[k0 v0] o IH]; simpl.
  - rewrite list_elem_of_singleton. auto.
  - case_decide; rewrite !elem_of_cons; intros [?|?]; auto.
    destruct IH; auto.
Qed.

Lemma obj_delete_elem_of k k' v' o :
  (k', v') ∈ obj_delete k o -> (k', v') ∈ o.
Proof.
  induction o as [|[k0 v0] o IH]; simpl; [done|].
  case_decide; rewrite ?elem_of_cons; [auto|]. intros [?|?]; auto.
Qed.

Lemma obj_keys_set k v o :
  obj_keys (obj_set k v o) =
  if decide (k ∈ obj_keys o) then obj_keys o else obj_keys o ++ [k].
Proof.
  unfold obj_keys. induction o as [|[k0 v0] o IH]; csimpl.
  - destruct (decide (k ∈ [])) as [H|H]; [by apply elem_of_nil in H | done].
  - destruct (decide (k = k0)) as [Hk|Hk]; subst; csimpl.
    + rewrite decide_True by left. done.
    + rewrite IH. destruct (decide (k ∈ o.*1)) as [Hin|Hnotin].
      * rewrite decide_True by (by right). done.
      * rewrite decide_False; [done|]. rewrite not_elem_of_cons. done.
Qed.

Lemma obj_keys_delete k o :
  obj_keys (obj_delete k o) = filter (fun k' => k' ≠ k) (obj_keys o).
Proof.
  unfold obj_keys. induction o as [|[k0 v0] o IH]; csimpl; [done|].
  rewrite filter_cons. destruct (decide (k = k0)) as [Hk|Hk]; subst; csimpl.
  - rewrite decide_False by (intros ?; done). done.
  - rewrite decide_True by done. csimpl. by rewrite IH.
Qed.

Lemma obj_set_NoDup k v o : NoDup (obj_keys o) -> NoDup (obj_keys (obj_set k v o)).
Proof.
  intros Hnd. rewrite obj_keys_set. case_decide; [done|].
  apply NoDup_app. split; [done|]. split.
  - intros x Hx Hx'. apply list_elem_of_singleton in Hx'. by subst.
  - apply NoDup_singleton.
Qed.

Lemma obj_delete_NoDup k o : NoDup (obj_keys o) -> NoDup (obj_keys (obj_delete k o)).
Proof. intros Hnd. rewrite obj_keys_delete. by apply NoDup_filter. Qed.
End ObjectFacts.

(** ** Registry update *)

(** C10. When the registry already has an entry for the model and the model
    has no [isPublic], [addModel] leaves the entry with [public] false,
    whatever it held before, and with [dataSource] the current data source
    name. *)
Theorem addModel_existing_resets_public (self : Discoverer)
    (model : ModelDefinition) (config : Registry) (entry : obj json) :
  modelConfig self = Some config ->
  obj_get (name model) config = Some entry ->
  isPublic model = None ->
  exists config' entry',
    addModel model self = (Normal tt, set_modelConfig config' self)
    /\ obj_get (name model) config' = Some entry'
    /\ obj_get "public" entry' = Some (JBool false)
    /\ obj_get "dataSource" entry' = Some (string_or_null (dsName self))
    /\ forall other, other ≠ name model ->
         obj_get other config' = obj_get other config.
Proof.
  intros Hconfig Hentry Hpublic.
  eexists _, _. split; [|split; [|split; [|split]]].
  - unfold addModel, mbind, M_bind, gets, modify. simpl.
    rewrite Hconfig, Hentry, Hpublic. simpl. reflexivity.
  - apply obj_get_set_eq.
  - apply obj_get_set_eq.
  - rewrite obj_get_set_ne by done. apply obj_get_set_eq.
  - intros other Hother. by apply obj_get_set_ne.
Qed.

(** ** Running the monad *)

Lemma for_keys_cons {S A} p keys (target : S -> obj A) body s :
  for_keys (p :: keys) target body s =
  if obj_has p (target s)
  then match body p s with
       | (Normal _, s') => for_keys keys target body s'
       | (Throw e, s') => (Throw e, s')
       | (Exit c, s') => (Exit c, s')
       end
  else for_keys keys target body s.
Proof. reflexivity. Qed.

Lemma forceTableName_spec (m : ModelDefinition) :
  exists m0, forceTableName m = (Normal tt, m0)
    /\ properties m0 = properties m
    /\ settings m0 = settings m
    /\ isPublic m0 = isPublic m.
Proof.
  unfold forceTableName. run.
  destruct (Settings.mysql (settings m)) as [my|]; [|by eexists].
  destruct (table my) as [t|]; [|by eexists].
  destruct (nonempty t && negb (bool_decide (name m = t))); by eexists.
Qed.

(** ** The re-keying loop *)

Lemma rekeyProperty_exit p (m : ModelDefinition) prop :
  obj_get p (properties m) = Some prop ->
  Property.mysql prop = None ->
  rekeyProperty p m = (Exit 1, m).
Proof. intros Hget Hmysql. unfold rekeyProperty. run. by rewrite Hget, Hmysql. Qed.

Lemma rekeyProperty_keep p (m : ModelDefinition) prop my :
  obj_get p (properties m) = Some prop ->
  Property.mysql prop = Some my ->
  columnName my = p ->
  rekeyProperty p m = (Normal tt, m).
Proof.
  intros Hget Hmysql Hcol. unfold rekeyProperty. run.
  rewrite Hget, Hmysql. by rewrite bool_decide_eq_false_2 by (by intros []).
Qed.

Lemma rekeyProperty_move p (m : ModelDefinition) prop my :
  obj_get p (properties m) = Some prop ->
  Property.mysql prop = Some my ->
  columnName my ≠ p ->
  rekeyProperty p m =
  (Normal tt,
   set_properties (obj_delete p (obj_set (columnName my) prop (properties m))) m).
Proof.
  intros Hget Hmysql Hcol. unfold rekeyProperty. run.
  rewrite Hget, Hmysql. by rewrite bool_decide_eq_true_2 by done.
Qed.

(** The loop ends the process at a property without [mysql] that no earlier
    property is moved onto. *)
Lemma rekey_loop_exit ks1 p ks2 (m : ModelDefinition) prop :
  NoDup (ks1 ++ p :: ks2) ->
  obj_get p (properties m) = Some prop ->
  Property.mysql prop = None ->
  (forall q v my, q ∈ ks1 -> obj_get q (properties m) = Some v ->
     Property.mysql v = Some my -> columnName my ≠ p) ->
  exists m', for_keys (ks1 ++ p :: ks2) properties rekeyProperty m = (Exit 1, m').
Proof.
  revert m. induction ks1 as [|q ks1 IH]; intros m Hnd Hp Hmysql Hcols.
  - rewrite app_nil_l. rewrite for_keys_cons.
    replace (obj_has p (properties m)) with true
      by (symmetry; apply obj_has_spec; eauto).
    rewrite (rekeyProperty_exit _ _ _ Hp Hmysql). eauto.
  - rewrite <- app_comm_cons in *. apply NoDup_cons in Hnd as [Hq Hnd].
    assert (q ≠ p) as Hqp by (intros ->; apply Hq; set_solver).
    rewrite for_keys_cons.
    destruct (obj_has q (properties m)) eqn:Hhas.
    + apply obj_has_spec in Hhas as [v Hv].
      destruct (Property.mysql v) as [my|] eqn:Hvm.
      * assert (columnName my ≠ p) as Hcp by (eapply Hcols; eauto; left).
        destruct (decide (columnName my = q)) as [Heq|Hne].
        -- rewrite (rekeyProperty_keep _ _ _ _ Hv Hvm Heq).
           apply IH; auto. intros q' v' my' Hq'. apply Hcols. by right.
        -- rewrite (rekeyProperty_move _ _ _ _ Hv Hvm Hne).
           apply IH; auto; simpl.
           ++ rewrite obj_get_delete_ne, obj_get_set_ne by done. done.
           ++ intros q' v' my' Hq'.
              assert (q' ≠ q) by (intros ->; apply Hq; set_solver).
              assert (q' ≠ p) by (intros ->; apply NoDup_app in Hnd as (_ & Hd & _);
                                  apply (Hd p); [done | left]).
              rewrite obj_get_delete_ne by done. rewrite obj_get_set.
              case_decide as Hc.
              ** intros [= <-]. rewrite Hvm. intros [= <-]. congruence.
              ** apply Hcols. by right.
      * rewrite (rekeyProperty_exit _ _ _ Hv Hvm). eauto.
    + apply IH; auto. intros q' v' my' Hq'. apply Hcols. by right.
Qed.

(** Without collisions the loop completes and settles every property. *)
Lemma rekey_loop_settles props0 ks (m : ModelDefinition) :
  (forall k prop, obj_get k props0 = Some prop -> is_Some (Property.mysql prop)) ->
  collision_free props0 ->
  NoDup ks ->
  (forall q, q ∈ ks -> is_Some (obj_get q props0)) ->
  settled props0 ks (properties m) ->
  exists m', for_keys ks properties rekeyProperty m = (Normal tt, m')
    /\ name m' = name m /\ settings m' = settings m /\ isPublic m' = isPublic m
    /\ settled props0 [] (properties m').
Proof.
  intros Hall [Hfresh Hdistinct]. revert m.
  induction ks as [|q ks IH]; intros m Hnd Hkeys Hset.
  - by exists m.
  - apply NoDup_cons in Hnd as [Hq Hnd].
    destruct (Hkeys q) as [prop Hprop0]; [left|].
    destruct Hset as [Htodo Hdone].
    assert (obj_get q (properties m) = Some prop) as Hprop
      by (rewrite Htodo by left; done).
    destruct (Hall _ _ Hprop0) as [my Hmy].
    assert (column_of prop = Some (columnName my)) as Hcol
      by (unfold column_of; by rewrite Hmy).
    rewrite for_keys_cons.
    replace (obj_has q (properties m)) with true
      by (symmetry; apply obj_has_spec; eauto).
    destruct (decide (columnName my = q)) as [Heq|Hne].
    + rewrite (rekeyProperty_keep _ _ _ _ Hprop Hmy Heq).
      apply IH; auto.
      { intros q' Hq'. apply Hkeys. by right. }
      split.
      * intros q' Hq'. apply Htodo. by right.
      * intros k prop' c Hk Hnotin Hc.
        destruct (decide (k = q)) as [->|Hkq].
        -- rewrite Hprop0 in Hk. injection Hk as <-.
           rewrite Hcol in Hc. injection Hc as <-.
           rewrite decide_True by done. done.
        -- apply Hdone; auto. rewrite not_elem_of_cons. done.
    + rewrite (rekeyProperty_move _ _ _ _ Hprop Hmy Hne).
      assert (moved props0 q prop (columnName my)) as Hmoved by done.
      assert (obj_get (columnName my) props0 = None) as Hc0 by eauto.
      destruct (IH (set_properties
                      (obj_delete q (obj_set (columnName my) prop (properties m))) m))
        as (m' & Hrun & Hname & Hsettings & Hpublic & Hfinal); auto.
      { intros q' Hq'. apply Hkeys. by right. }
      { simpl. split.
        * intros q' Hq'.
          assert (q' ≠ q) by (intros ->; done).
          assert (q' ≠ columnName my).
          { intros ->. destruct (Hkeys (columnName my)) as [? Hsome]; [by right|].
            congruence. }
          rewrite obj_get_delete_ne, obj_get_set_ne by done.
          apply Htodo. by right.
        * intros k prop' c Hk Hnotin Hc.
          destruct (decide (k = q)) as [->|Hkq].
          -- rewrite Hprop0 in Hk. injection Hk as <-.
             rewrite Hcol in Hc. injection Hc as <-.
             rewrite decide_False by done. split.
             ++ rewrite obj_get_delete. by rewrite decide_True.
             ++ rewrite obj_get_delete_ne by done. apply obj_get_set_eq.
          -- assert (k ∉ q :: ks) as Hnotin' by (rewrite not_elem_of_cons; done).
             specialize (Hdone k prop' c Hk Hnotin' Hc).
             assert (k ≠ columnName my) by congruence.
             destruct (decide (c = k)) as [->|Hck].
             ++ rewrite obj_get_delete_ne, obj_get_set_ne by done. done.
             ++ destruct Hdone as [Hgone Hthere].
                assert (moved props0 k prop' c) as Hmoved' by done.
                assert (c ≠ columnName my).
                { intros ->. apply Hkq. eapply Hdistinct; eauto. }
                assert (c ≠ q).
                { intros ->. specialize (Hfresh _ _ _ Hmoved'). congruence. }
                rewrite !obj_get_delete_ne, !obj_get_set_ne by done. done. }
      exists m'. by rewrite Hrun.
Qed.

Lemma rekeyProperty_normal p (m m' : ModelDefinition) :
  rekeyProperty p m = (Normal tt, m') ->
  m' = m \/
  exists prop c, obj_get p (properties m) = Some prop
    /\ m' = set_properties (obj_delete p (obj_set c prop (properties m))) m.
Proof.
  unfold rekeyProperty. run.
  destruct (obj_get p (properties m)) as [prop|]; [|done].
  destruct (Property.mysql prop) as [my|]; [|done].
  case_bool_decide; intros [= <-]; eauto.
Qed.

(** The loop keeps the keys distinct and invents no property. *)
Lemma rekey_loop_preserves ks (m m' : ModelDefinition) :
  for_keys ks properties rekeyProperty m = (Normal tt, m') ->
  NoDup (obj_keys (properties m)) ->
  NoDup (obj_keys (properties m'))
  /\ (forall k prop, (k, prop) ∈ properties m' ->
        exists k0, (k0, prop) ∈ properties m)
  /\ name m' = name m.
Proof.
  revert m. induction ks as [|q ks IH]; intros m.
  - intros [= <-]. eauto.
  - rewrite for_keys_cons. destruct (obj_has q (properties m)); [|by apply IH].
    destruct (rekeyProperty q m) as [[[]| |] m1] eqn:Hstep; try done.
    intros Hrun Hnd.
    apply rekeyProperty_normal in Hstep as [->|(prop & c & Hprop & ->)];
      [by apply IH|].
    destruct (IH _ Hrun) as (Hnd' & Hfrom & Hname).
    { simpl. by apply obj_delete_NoDup, obj_set_NoDup. }
    split; [done|]. split; [|done].
    intros k prop' Hin. destruct (Hfrom _ _ Hin) as [k0 Hin0]. simpl in Hin0.
    apply obj_delete_elem_of, obj_set_elem_of in Hin0 as [[= -> ->]|Hin0]; [|eauto].
    exists q. by apply obj_get_elem_of.
Qed.

(** ** The casing loop *)

Lemma caseProperty_normal p (m m' : ModelDefinition) prop :
  obj_get p (properties m) = Some prop ->
  caseProperty p m = (Normal tt, m') ->
  (exists fname, Property.type prop = TyFunction fname)
  /\ m' = set_properties (obj_set p (lower_type prop) (properties m)) m.
Proof.
  unfold caseProperty, lower_type. run. intros ->.
  destruct (Property.type prop) as [fname|]; [|done].
  intros [= <-]. eauto.
Qed.

Lemma case_loop_spec done todo (m m' : ModelDefinition) :
  properties m = done ++ todo ->
  NoDup (obj_keys (done ++ todo)) ->
  for_keys (obj_keys todo) properties caseProperty m = (Normal tt, m') ->
  properties m' = done ++ (prod_map id lower_type <$> todo)
  /\ Forall (fun kv => exists fname, Property.type kv.2 = TyFunction fname) todo
  /\ name m' = name m /\ settings m' = settings m /\ isPublic m' = isPublic m.
Proof.
  revert done m. induction todo as [|[k prop] todo IH]; intros done m Hprops Hnd.
  - intros [= <-]. by rewrite Hprops.
  - change (obj_keys ((k, prop) :: todo)) with (k :: obj_keys todo).
    rewrite for_keys_cons.
    assert (k ∉ obj_keys done) as Hfresh.
    { unfold obj_keys in *. rewrite fmap_app in Hnd.
      apply NoDup_app in Hnd as (_ & Hd & _). intros Hin. apply (Hd _ Hin). left. }
    assert (obj_get k (properties m) = Some prop) as Hget.
    { rewrite Hprops, obj_get_app.
      apply obj_get_None in Hfresh as ->. simpl. by rewrite decide_True. }
    replace (obj_has k (properties m)) with true
      by (symmetry; apply obj_has_spec; eauto).
    destruct (caseProperty k m) as [[[]| |] m1] eqn:Hstep; try done.
    apply (caseProperty_normal _ _ _ _ Hget) in Hstep as [Hfun ->].
    intros Hrun.
    destruct (IH (done ++ [(k, lower_type prop)])
                (set_properties (obj_set k (lower_type prop) (properties m)) m))
      as (Hprops' & Hall & Hname & Hsettings & Hpublic); [| |exact Hrun|].
    { simpl. rewrite Hprops, obj_set_app_fresh by done.
      by rewrite <- app_assoc. }
    { rewrite <- app_assoc. simpl. unfold obj_keys in *.
      rewrite fmap_app in *. exact Hnd. }
    split; [|split; [|done]].
    + rewrite Hprops', <- app_assoc. done.
    + constructor; done.
Qed.

Lemma casePropertiesDataType_spec (m m' : ModelDefinition) :
  NoDup (obj_keys (properties m)) ->
  casePropertiesDataType m = (Normal tt, m') ->
  properties m' = prod_map id lower_type <$> properties m
  /\ Forall (fun kv => exists fname, Property.type kv.2 = TyFunction fname)
       (properties m)
  /\ name m' = name m /\ settings m' = settings m /\ isPublic m' = isPublic m.
Proof.
  intros Hnd Hrun. by apply (case_loop_spec [] (properties m) m m').
Qed.

(** ** Lowercase *)



Lemma obj_keys_prod_map {A B} (f : A -> B) (o : obj A) :
  obj_keys (prod_map id f <$> o) = obj_keys o.
Proof.
  unfold obj_keys. rewrite <- list_fmap_compose. apply list_fmap_ext.
  by intros i [k v] _.
Qed.

(** ** Saving a model *)

Section SaveModel.
Variable path_join : string -> string -> string.

Lemma rekey_loop_name ks (m m' : ModelDefinition) r :
  for_keys ks properties rekeyProperty m = (r, m') -> name m' = name m.
Proof.
  revert m. induction ks as [|q ks IH]; intros m.
  - by intros [= _ <-].
  - rewrite for_keys_cons. destruct (obj_has q (properties m)); [|apply IH].
    assert (forall r1 m1, rekeyProperty q m = (r1, m1) -> name m1 = name m) as Hstep.
    { unfold rekeyProperty. run. intros r1 m1.
      destruct (obj_get q (properties m)) as [prop|]; [|by intros [= _ <-]].
      destruct (Property.mysql prop) as [my|]; [|by intros [= _ <-]].
      case_bool_decide; by intros [= _ <-]. }
    destruct (rekeyProperty q m) as [[[]|e|c] m1] eqn:Hq;
      specialize (Hstep _ _ eq_refl).
    + intros Hrun. apply IH in Hrun. congruence.
    + intros [= _ <-]. done.
    + intros [= _ <-]. done.
Qed.

(** The renaming loop leaves the name that lines 105-113 have set. *)
Lemma reconcile_name (m : ModelDefinition) :
  name (reconcile m).2 = name (forceTableName m).2.
Proof.
  unfold reconcile. destruct (forceTableName_spec m) as (m0 & Hforce & _).
  unfold mbind, M_bind. rewrite Hforce. simpl.
  unfold rekeyProperties, for_in.
  destruct (for_keys (obj_keys (properties m0)) properties rekeyProperty m0)
    as [r m1] eqn:Hrun.
  simpl. by apply rekey_loop_name in Hrun.
Qed.

Lemma reconcile_properties (m m1 : ModelDefinition) :
  reconcile m = (Normal tt, m1) ->
  exists m0, properties m0 = properties m
    /\ for_keys (obj_keys (properties m)) properties rekeyProperty m0 = (Normal tt, m1).
Proof.
  unfold reconcile. destruct (forceTableName_spec m) as (m0 & Hforce & Hprops & _).
  unfold mbind, M_bind. rewrite Hforce.
  unfold rekeyProperties, for_in. rewrite Hprops. intros Hrun. eauto.
Qed.

(** C7, as the code has it. When the target file
    [<modelsPath>/<model.name>.json], named after the model as lines 105-113
    leave it, exists and [overwrite] is not [true], [saveModel] leaves the
    file system as it is, and a call that gets through the renaming loop
    calls back with [(null, null)], which is neither a written model nor an
    error. *)
Theorem saveModel_skips_existing_file (modelsPath : string)
    (model : ModelDefinition) (overwrite : option bool) (fs : FileSystem) :
  let modelPath :=
    path_join modelsPath (name (forceTableName model).2 +:+ ".json") in
  fileExists modelPath fs = true ->
  overwrite ≠ Some true ->
  (saveModel path_join modelsPath (Some model) overwrite fs).2 = fs
  /\ forall m1,
       reconcile model = (Normal tt, m1) ->
       saveModel path_join modelsPath (Some model) overwrite fs
       = (Normal (Some m1, CbOk None), fs).
Proof.
  intros modelPath Hexist Hover.
  pose proof (reconcile_name model) as Hname. fold modelPath.
  unfold saveModel, saveModel_try. run.
  destruct (reconcile model) as [[[]|e|c] m1]; simpl in *.
  - rewrite Hname. fold modelPath. rewrite Hexist. simpl.
    rewrite bool_decide_eq_false_2 by done. simpl.
    split; [done|]. by intros m1' [= <-].
  - split; [done|]. intros m1' [=].
  - split; [done|]. intros m1' [=].
Qed.

(** C3. When the target file exists and holds a JSON object, and
    [overwrite] is [true], the file written is that object with its
    [properties] replaced by the properties of the discovered model (renamed
    and type-cased); every other top-level field is as it was. *)
Theorem saveModel_overwrite_replaces_properties_only (modelsPath : string)
    (model m1 m2 : ModelDefinition) (fs : FileSystem)
    (fields : list (string * json)) :
  let modelPath := path_join modelsPath (name m1 +:+ ".json") in
  let written :=
    obj_set "properties" (properties_to_json (properties m2)) fields in
  reconcile model = (Normal tt, m1) ->
  casePropertiesDataType m1 = (Normal tt, m2) ->
  nodes fs !! modelPath = Some (File (JsonText (JObj fields))) ->
  modelPath ∉ denied fs ->
  saveModel path_join modelsPath (Some model) (Some true) fs
  = (Normal (Some m2, CbOk (Some (JObj written))),
     fs_put modelPath (File (JsonText (JObj written))) fs)
  /\ obj_get "properties" written = Some (properties_to_json (properties m2))
  /\ forall k, k ≠ "properties" -> obj_get k written = obj_get k fields.
Proof.
  intros modelPath written Hrec Hcase Hfile Hdenied.
  split; [|split].
  - unfold saveModel, saveModel_try. run. rewrite Hrec. simpl.
    assert (fileExists modelPath fs = true) as Hexist.
    { unfold fileExists. rewrite Hfile. apply bool_decide_eq_true. eauto. }
    fold modelPath. rewrite Hexist. simpl. rewrite Hcase. simpl.
    unfold readFileSync. rewrite Hfile. simpl.
    unfold writeFileSync. rewrite decide_False by done. rewrite Hfile.
    reflexivity.
  - apply obj_get_set_eq.
  - intros k Hk. by apply obj_get_set_ne.
Qed.

(** C1, as the code has it. A property without [mysql], onto whose key no
    earlier property is moved, ends the process with status 1: nothing is
    written, the callback of [saveModel] is never called, and the series of
    saves it is part of ends there too, without any error being handed to a
    callback. *)
Theorem saveModel_exits_without_mysql (modelsPath : string)
    (model : ModelDefinition) (overwrite : option bool) (fs : FileSystem)
    (before after : obj Property.t) (p : string) (prop : Property.t) :
  properties model = before ++ (p, prop) :: after ->
  NoDup (obj_keys (properties model)) ->
  Property.mysql prop = None ->
  (forall q other, (q, other) ∈ before -> column_of other ≠ Some p) ->
  saveModel path_join modelsPath (Some model) overwrite fs = (Exit 1, fs)
  /\ forall rest,
       eachSeries (Some model :: rest)
         (fun m => saveModel path_join modelsPath m overwrite) fs = (Exit 1, fs).
Proof.
  intros Hprops Hnd Hmysql Hbefore.
  assert (saveModel path_join modelsPath (Some model) overwrite fs = (Exit 1, fs)) as Hexit.
  { destruct (forceTableName_spec model) as (m0 & Hforce & Hprops0 & _).
    destruct (rekey_loop_exit (obj_keys before) p (obj_keys after) m0 prop)
      as [m' Hloop].
    - rewrite Hprops in Hnd. unfold obj_keys in *.
      by rewrite fmap_app, fmap_cons in Hnd.
    - rewrite Hprops0, Hprops, obj_get_app.
      assert (p ∉ obj_keys before) as Hfresh.
      { rewrite Hprops in Hnd. unfold obj_keys in *.
        rewrite fmap_app, fmap_cons in Hnd.
        apply NoDup_app in Hnd as (_ & Hd & _). intros Hin. apply (Hd _ Hin). left. }
      apply obj_get_None in Hfresh as ->. simpl. by rewrite decide_True.
    - done.
    - intros q v my Hq Hv Hmy Hcol. rewrite Hprops0, Hprops, obj_get_app in Hv.
      apply obj_get_is_Some in Hq as [v' Hv']. rewrite Hv' in Hv.
      injection Hv as ->. apply obj_get_elem_of in Hv'.
      apply (Hbefore _ _ Hv'). unfold column_of. rewrite Hmy. simpl. by f_equal.
    - unfold saveModel, saveModel_try, reconcile. run. rewrite Hforce.
      unfold rekeyProperties, for_in. rewrite Hprops0, Hprops.
      unfold obj_keys in *. rewrite fmap_app, fmap_cons.
      change ((p, prop).1) with p. rewrite Hloop. reflexivity. }
  split; [done|].
  intros rest. simpl. unfold mbind, M_bind. by rewrite Hexit.
Qed.

(** What a call that reports a written definition has done. *)
Lemma saveModel_written_inv (modelsPath : string) (model : ModelDefinition)
    (overwrite : option bool) (fs fs' : FileSystem)
    (after : option ModelDefinition) (written : json) :
  saveModel path_join modelsPath (Some model) overwrite fs
  = (Normal (after, CbOk (Some written)), fs') ->
  exists m1 m2,
    reconcile model = (Normal tt, m1)
    /\ casePropertiesDataType m1 = (Normal tt, m2)
    /\ after = Some m2
    /\ forall fields, written = JObj fields ->
         obj_get "properties" fields = Some (properties_to_json (properties m2)).
Proof.
  unfold saveModel, saveModel_try. run.
  destruct (reconcile model) as [[[]| |] m1] eqn:Hrec; simpl; try done.
  set (modelPath := path_join modelsPath (name m1 +:+ ".json")).
  destruct (negb (fileExists modelPath fs) || bool_decide (overwrite = Some true));
    simpl; [|done].
  destruct (casePropertiesDataType m1) as [[[]| |] m2] eqn:Hcase; simpl; try done.
  assert (forall doc,
    (let (r, fs1) := writeFileSync modelPath (JsonText doc) fs in
     match r with
     | Normal _ => (Normal (Some m2, CbOk (Some doc)), fs1)
     | Throw e => (Normal (Some m2, CbErr e), fs1)
     | Exit c => (Exit c, fs1)
     end) = (Normal (after, CbOk (Some written)), fs') ->
    after = Some m2 /\ written = doc) as Hwrite.
  { intros doc. destruct (writeFileSync modelPath (JsonText doc) fs) as [[[]| |] fs1];
      [|done..]. by intros [= <- <- <-]. }
  destruct (fileExists modelPath fs); simpl.
  - unfold readFileSync. destruct (nodes fs !! modelPath) as [[|[doc|raw]]|] eqn:Hnode;
      simpl; try done.
    destruct doc; simpl; try done; intros Hrun;
      (match type of Hrun with
       | context [writeFileSync _ (JsonText ?d)] =>
           destruct (Hwrite d) as [-> ->]
       end;
       [ destruct (writeFileSync modelPath _ fs) as [[[]| |] ?]; exact Hrun | ]);
      exists m1, m2; repeat split; try done; intros fields' [= <-];
      apply obj_get_set_eq.
  - intros Hrun. destruct (Hwrite (model_to_json m2)) as [-> ->].
    { destruct (writeFileSync modelPath _ fs) as [[[]| |] ?]; exact Hrun. }
    exists m1, m2. repeat split; try done. intros fields' [= <-]. reflexivity.
Qed.

(** C5, as the code has it. When every property has [mysql] and no property
    is moved onto a key of the model or onto the column name of another
    moved property, the renaming completes, and every property whose key is
    not its column name ends under the column name while its old key is
    gone; a definition that [saveModel] then writes has the column name and
    not the old key among its properties. *)
Theorem saveModel_rekeys_under_column_name (model : ModelDefinition) :
  NoDup (obj_keys (properties model)) ->
  (forall k prop, obj_get k (properties model) = Some prop ->
     is_Some (Property.mysql prop)) ->
  collision_free (properties model) ->
  exists m1,
    reconcile model = (Normal tt, m1)
    /\ (forall p prop c, moved (properties model) p prop c ->
          obj_get p (properties m1) = None
          /\ obj_get c (properties m1) = Some prop)
    /\ (forall modelsPath overwrite fs after fields fs',
          saveModel path_join modelsPath (Some model) overwrite fs
          = (Normal (after, CbOk (Some (JObj fields))), fs') ->
          forall p prop c, moved (properties model) p prop c ->
            (p ∉ obj_keys (persisted_properties (JObj fields)))
            /\ (c ∈ obj_keys (persisted_properties (JObj fields)))).
Proof.
  intros Hnd Hall Hfree.
  destruct (forceTableName_spec model) as (m0 & Hforce & Hprops0 & _).
  destruct (rekey_loop_settles (properties model) (obj_keys (properties model)) m0)
    as (m1 & Hloop & _ & _ & _ & _ & Hsettled); auto.
  { intros q. apply obj_get_is_Some. }
  { rewrite Hprops0. split; [done|]. intros k prop c Hk Hnotin.
    exfalso. apply Hnotin. apply obj_get_is_Some. eauto. }
  assert (reconcile model = (Normal tt, m1)) as Hrec.
  { unfold reconcile, mbind, M_bind. rewrite Hforce.
    unfold rekeyProperties, for_in. by rewrite Hprops0. }
  assert (forall p prop c, moved (properties model) p prop c ->
            obj_get p (properties m1) = None
            /\ obj_get c (properties m1) = Some prop) as Hmoved.
  { intros p prop c (Hget & Hcol & Hne).
    specialize (Hsettled p prop c Hget (not_elem_of_nil _) Hcol).
    by rewrite decide_False in Hsettled. }
  exists m1. split; [done|]. split; [done|].
  intros modelsPath overwrite fs after fields fs' Hsave p prop c Hm.
  apply saveModel_written_inv in Hsave as (m1' & m2 & Hrec' & Hcase & _ & Hfields).
  rewrite Hrec in Hrec'. injection Hrec' as <-.
  destruct (reconcile_properties _ _ Hrec) as (m0' & Hprops0' & Hloop').
  destruct (rekey_loop_preserves _ _ _ Hloop') as (Hnd1 & _ & _);
    [by rewrite Hprops0'|].
  destruct (casePropertiesDataType_spec _ _ Hnd1 Hcase) as (Hprops2 & _).
  simpl. rewrite (Hfields fields eq_refl). unfold properties_to_json.
  rewrite Hprops2, !obj_keys_prod_map.
  destruct (Hmoved _ _ _ Hm) as [Hgone Hthere]. split.
  - by apply obj_get_None.
  - apply obj_get_is_Some. eauto.
Qed.

End SaveModel.

(** ** The table filter *)

Lemma occurrences_cons x y l :
  occurrences x (y :: l) = (if decide (y = x) then 1 else 0) + occurrences x l.
Proof. unfold occurrences. rewrite filter_cons. by case_decide. Qed.

Lemma occurrences_pos x l : 0 < occurrences x l <-> x ∈ l.
Proof.
  induction l as [|y l IH].
  - split; [inversion 1 | by intros ?%elem_of_nil].
  - rewrite occurrences_cons, elem_of_cons. case_decide; subst.
    + split; [auto | lia].
    + simpl. rewrite IH. split; [auto | intros [?|?]; [congruence | done]].
Qed.

Lemma indexOf_None x l : indexOf x l = None -> occurrences x l = 0.
Proof.
  induction l as [|y l IH]; simpl; [done|].
  case_decide; [done|]. rewrite occurrences_cons.
  destruct (indexOf x l); [done|]. intros _.
  rewrite decide_False by congruence. by rewrite IH.
Qed.

Lemma indexOf_Some x l idx :
  indexOf x l = Some idx ->
  forall y, occurrences y (splice1 idx l)
            = occurrences y l - (if decide (x = y) then 1 else 0).
Proof.
  unfold splice1. revert idx. induction l as [|z l IH]; intros idx; simpl; [done|].
  case_decide as Hxz.
  - intros [= <-] y. subst z. simpl. rewrite occurrences_cons.
    case_decide; lia.
  - destruct (indexOf x l) as [i|] eqn:Hi; [|done].
    intros [= <-] y. simpl. rewrite !occurrences_cons, (IH i eq_refl y).
    assert (0 < occurrences x l) by (apply occurrences_pos;
      clear -Hi; revert i Hi; induction l as [|w l IHl]; intros i; simpl; [done|];
      case_decide; subst; [left|]; destruct (indexOf x l); [|done];
      intros _; right; eauto).
    repeat case_decide; subst; try congruence; lia.
Qed.

(** What the filter leaves of the allow-list: each discovered table has
    taken away one occurrence of its name. *)
Lemma filterTables_rest_occurrences tables wanted x :
  occurrences x (filterTables tables wanted).2
  = occurrences x wanted - occurrences x (Table.name <$> tables).
Proof.
  revert wanted. induction tables as [|t tables IH]; intros wanted; csimpl.
  - unfold occurrences at 3. simpl. lia.
  - rewrite occurrences_cons.
    destruct (indexOf (Table.name t) wanted) as [idx|] eqn:Hidx; simpl.
    + rewrite IH, (indexOf_Some _ _ _ Hidx). lia.
    + rewrite IH. apply indexOf_None in Hidx.
      case_decide; subst; lia.
Qed.

(** The filter keeps a table exactly when its name is still on the list. *)
Lemma filterTables_kept_names tables wanted t :
  t ∈ (filterTables tables wanted).1 -> t ∈ tables.
Proof.
  revert wanted. induction tables as [|t' tables IH]; intros wanted; simpl.
  - done.
  - destruct (indexOf (Table.name t') wanted); simpl; rewrite ?elem_of_cons.
    + intros [?|?]; eauto.
    + eauto.
Qed.

(** ** What a run does to the options object *)

Lemma keeps_opts_ret {A} (a : A) : keeps_opts (mret a).
Proof. by intros w. Qed.

Lemma keeps_opts_bind {A B} (m : M World A) (f : A -> M World B) :
  keeps_opts m -> (forall a, keeps_opts (f a)) -> keeps_opts (m ≫= f).
Proof.
  intros Hm Hf w. unfold mbind, M_bind. specialize (Hm w).
  destruct (m w) as [[a|e|c] w']; simpl in *; [|done..].
  by rewrite Hf.
Qed.

Lemma keeps_opts_gets {A} (f : World -> A) : keeps_opts (gets f).
Proof. by intros w. Qed.

Lemma keeps_opts_throw {A} e : keeps_opts (throw e : M World A).
Proof. by intros w. Qed.

Lemma keeps_opts_on_disk {A} (m : M FileSystem A) : keeps_opts (on_disk m).
Proof. intros w. unfold on_disk. by destruct (m (disk w)). Qed.

Lemma keeps_opts_try_catch {A} (m : M World A) h :
  keeps_opts m -> (forall e, keeps_opts (h e)) -> keeps_opts (try_catch m h).
Proof.
  intros Hm Hh w. unfold try_catch. specialize (Hm w).
  destruct (m w) as [[a|e|c] w']; simpl in *; [done| |done].
  by rewrite Hh.
Qed.

Lemma keeps_opts_mapSeries {A B} (u : B) (arr : list A)
    (iterator : A -> M World (Callback B)) :
  (forall x, keeps_opts (iterator x)) -> keeps_opts (mapSeries u arr iterator).
Proof.
  intros Hit. induction arr as [|x arr IH]; simpl.
  - apply keeps_opts_ret.
  - apply keeps_opts_bind; [done|]. intros [e|v]; [apply keeps_opts_ret|].
    apply keeps_opts_bind; [done|]. intros r. apply keeps_opts_ret.
Qed.

Section DiscoveryRun.
Variable path_join : string -> string -> string.
Variable require : string -> option App.

Lemma keeps_opts_buildModel ds t : keeps_opts (buildModel ds t).
Proof.
  unfold buildModel. destruct (discoverAndBuildModels ds (Table.name t)) as [e|models].
  - apply keeps_opts_ret.
  - destruct models as [|[modelName definition] ?];
      [apply keeps_opts_throw | apply keeps_opts_ret].
Qed.

Lemma keeps_opts_persistModels err models :
  keeps_opts (persistModels path_join err models).
Proof.
  unfold persistModels.
  apply keeps_opts_bind; [apply keeps_opts_gets|]. intros self.
  apply keeps_opts_bind; [apply keeps_opts_gets|]. intros options.
  destruct (appPath self); [|apply keeps_opts_throw].
  apply keeps_opts_bind; [apply keeps_opts_gets|]. intros exist.
  apply keeps_opts_bind.
  - destruct exist; [apply keeps_opts_ret|].
    apply keeps_opts_try_catch; [|intros; apply keeps_opts_ret].
    apply keeps_opts_bind; [apply keeps_opts_on_disk|].
    intros; apply keeps_opts_ret.
  - intros [|]; [|apply keeps_opts_ret].
    apply keeps_opts_bind; [apply keeps_opts_on_disk|]. intros r.
    destruct (r.2); apply keeps_opts_ret.
Qed.

(** A call whose binding succeeds and whose data source answers gets to the
    callback of [discoverModelDefinitions] with the schema set. *)
Lemma discoverModels_discovered (w w1 : World) (ds : DataSource)
    (discover : Options.t -> Callback (list Table.t)) :
  bindOptions path_join require w = (Normal None, w1) ->
  dataSource (this w1) = Some ds ->
  discoverModelDefinitions ds = Some discover ->
  let w2 := update_opts (set_schema (database ds)) w1 in
  discoverModels path_join require w
  = discovered path_join ds (discover (opts w2)) w2.
Proof.
  intros Hbind Hds Hdiscover w2. unfold discoverModels.
  unfold mbind at 1. unfold M_bind at 1. rewrite Hbind.
  unfold mbind at 1. unfold M_bind at 1. unfold gets at 1.
  rewrite Hds. unfold set_opts.
  unfold mbind at 1. unfold M_bind at 1. unfold modify at 1.
  unfold mbind at 1. unfold M_bind at 1. unfold gets at 1.
  by rewrite Hdiscover.
Qed.

(** With an allow-list of which something is left, the run ends in the
    error that names what is left. *)
Lemma discovered_not_found (w : World) (ds : DataSource)
    (tables : list Table.t) (wanted : list string) :
  Options.tablesList (opts w) = Some wanted ->
  let rest := (filterTables tables wanted).2 in
  rest ≠ [] ->
  discovered path_join ds (CbOk tables) w
  = (Normal (CbErr (Error ("Tables not found: " +:+ join ", " rest))),
     update_opts (set_tablesList rest) w).
Proof.
  intros Hwanted rest Hrest. unfold discovered.
  unfold mbind at 1. unfold M_bind at 1. unfold gets at 1.
  rewrite Hwanted. fold rest. unfold set_opts.
  unfold mbind at 1. unfold M_bind at 1. unfold modify at 1.
  destruct rest; [done|]. reflexivity.
Qed.

(** C4. A call with an allow-list whose binding succeeds and whose data
    source answers with tables, and in which the filter leaves some
    requested name unconsumed, calls back with the error
    ['Tables not found: '] followed by the names left, joined by [', '];
    what is left is the allow-list less one occurrence per discovered table
    of that name, so names that did match do not prevent the error. *)
Theorem discoverModels_tables_not_found (w w1 : World) (ds : DataSource)
    (discover : Options.t -> Callback (list Table.t))
    (tables : list Table.t) (wanted : list string) :
  let w2 := update_opts (set_schema (database ds)) w1 in
  let rest := (filterTables tables wanted).2 in
  bindOptions path_join require w = (Normal None, w1) ->
  dataSource (this w1) = Some ds ->
  discoverModelDefinitions ds = Some discover ->
  discover (opts w2) = CbOk tables ->
  Options.tablesList (opts w1) = Some wanted ->
  rest ≠ [] ->
  discoverModels path_join require w
  = (Normal (CbErr (Error ("Tables not found: " +:+ join ", " rest))),
     update_opts (set_tablesList rest) w2)
  /\ forall x, occurrences x rest
               = occurrences x wanted - occurrences x (Table.name <$> tables).
Proof.
  intros w2 rest Hbind Hds Hdiscover Htables Hwanted Hrest. split.
  - rewrite (discoverModels_discovered _ _ _ _ Hbind Hds Hdiscover).
    fold w2. rewrite Htables. by apply discovered_not_found.
  - intros x. apply filterTables_rest_occurrences.
Qed.

(** C9. When the allow-list holds a name twice and discovery returns one
    table of that name, the run ends in the ['Tables not found'] error, and
    the names it lists hold that name once. *)
Theorem discoverModels_duplicate_request (w w1 : World) (ds : DataSource)
    (discover : Options.t -> Callback (list Table.t))
    (tables : list Table.t) (wanted : list string) (x : string) :
  let w2 := update_opts (set_schema (database ds)) w1 in
  let rest := (filterTables tables wanted).2 in
  bindOptions path_join require w = (Normal None, w1) ->
  dataSource (this w1) = Some ds ->
  discoverModelDefinitions ds = Some discover ->
  discover (opts w2) = CbOk tables ->
  Options.tablesList (opts w1) = Some wanted ->
  occurrences x wanted = 2 ->
  occurrences x (Table.name <$> tables) = 1 ->
  (discoverModels path_join require w).1
  = Normal (CbErr (Error ("Tables not found: " +:+ join ", " rest)))
  /\ occurrences x rest = 1
  /\ x ∈ rest.
Proof.
  intros w2 rest Hbind Hds Hdiscover Htables Hwanted Htwice Honce.
  assert (occurrences x rest = 1) as Hrest.
  { unfold rest. rewrite filterTables_rest_occurrences. lia. }
  assert (x ∈ rest) as Hin by (apply occurrences_pos; lia).
  assert (rest ≠ []) as Hne.
  { intros Hnil. rewrite Hnil in Hin. by apply elem_of_nil in Hin. }
  split; [|done].
  rewrite (discoverModels_discovered _ _ _ _ Hbind Hds Hdiscover).
  fold w2. rewrite Htables.
  by rewrite (discovered_not_found w2 ds tables wanted Hwanted Hne).
Qed.

(** C8, as the code has it. The filter splices the list of the options
    object itself: whatever the run goes on to do, it leaves the caller's
    [tablesList] holding the names that were not consumed. *)
Theorem discoverModels_consumes_tablesList (w w1 : World) (ds : DataSource)
    (discover : Options.t -> Callback (list Table.t))
    (tables : list Table.t) (wanted : list string) :
  let w2 := update_opts (set_schema (database ds)) w1 in
  bindOptions path_join require w = (Normal None, w1) ->
  dataSource (this w1) = Some ds ->
  discoverModelDefinitions ds = Some discover ->
  discover (opts w2) = CbOk tables ->
  Options.tablesList (opts w1) = Some wanted ->
  Options.tablesList (opts (discoverModels path_join require w).2)
  = Some (filterTables tables wanted).2.
Proof.
  intros w2 Hbind Hds Hdiscover Htables Hwanted.
  rewrite (discoverModels_discovered _ _ _ _ Hbind Hds Hdiscover).
  fold w2. rewrite Htables. unfold discovered.
  unfold mbind at 1. unfold M_bind at 1. unfold gets at 1.
  change (Options.tablesList (opts w2)) with (Options.tablesList (opts w1)).
  rewrite Hwanted. unfold set_opts.
  unfold mbind at 1. unfold M_bind at 1. unfold modify at 1.
  set (w3 := update_opts (set_tablesList (filterTables tables wanted).2) w2).
  destruct (0 <? length (filterTables tables wanted).2)%nat; [done|].
  assert (keeps_opts
    (r ← mapSeries None (filterTables tables wanted).1 (buildModel ds);
     persistModels path_join r.1 r.2)) as Hkeeps.
  { apply keeps_opts_bind.
    - apply keeps_opts_mapSeries. intros t. apply keeps_opts_buildModel.
    - intros r. apply keeps_opts_persistModels. }
  by rewrite Hkeeps.
Qed.
End DiscoveryRun.

(** ** Instances on sample data *)

Lemma addModel_existing_resets_public_witness :
  exists config' entry',
    addModel customer with_registry
    = (Normal tt, set_modelConfig config' with_registry)
    /\ obj_get "Customer" config' = Some entry'
    /\ obj_get "public" entry' = Some (JBool false)
    /\ obj_get "dataSource" entry' = Some (JStr "db")
    /\ forall other, other ≠ "Customer" ->
         obj_get other config' = obj_get other registry.
Proof.
  apply (addModel_existing_resets_public with_registry customer registry
           [("dataSource", JStr "old"); ("public", JBool true)]);
    reflexivity.
Defined.

Lemma saveModel_skips_existing_file_witness :
  (saveModel posix_join "models" (Some customer) (Some false) customer_disk).2
  = customer_disk
  /\ forall m1,
       reconcile customer = (Normal tt, m1) ->
       saveModel posix_join "models" (Some customer) (Some false) customer_disk
       = (Normal (Some m1, CbOk None), customer_disk).
Proof.
  apply (saveModel_skips_existing_file posix_join "models" customer
           (Some false) customer_disk).
  - vm_compute. reflexivity.
  - discriminate.
Defined.

(** The renaming of [customer] completes, so that the call just above does
    call back, with [(null, null)]. *)
Lemma customer_is_skipped :
  reconcile customer = (Normal tt, customer_renamed)
  /\ saveModel posix_join "models" (Some customer) (Some false) customer_disk
     = (Normal (Some customer_renamed, CbOk None), customer_disk).
Proof. split; vm_compute; reflexivity. Qed.

Lemma saveModel_overwrite_replaces_properties_only_witness :
  let written :=
    obj_set "properties" (properties_to_json (properties customer_cased))
      customer_file in
  saveModel posix_join "models" (Some customer) (Some true) customer_disk
  = (Normal (Some customer_cased, CbOk (Some (JObj written))),
     fs_put "models/Customer.json" (File (JsonText (JObj written))) customer_disk)
  /\ obj_get "properties" written
     = Some (properties_to_json (properties customer_cased))
  /\ forall k, k ≠ "properties" -> obj_get k written = obj_get k customer_file.
Proof.
  apply (saveModel_overwrite_replaces_properties_only posix_join "models"
           customer customer_renamed customer_cased customer_disk customer_file).
  - vm_compute. reflexivity.
  - vm_compute. reflexivity.
  - vm_compute. reflexivity.
  - apply not_elem_of_empty.
Defined.

Lemma saveModel_exits_without_mysql_witness :
  saveModel posix_join "models" (Some keyless) None empty_disk
  = (Exit 1, empty_disk)
  /\ forall rest,
       eachSeries (Some keyless :: rest)
         (fun m => saveModel posix_join "models" m None) empty_disk
       = (Exit 1, empty_disk).
Proof.
  apply (saveModel_exits_without_mysql posix_join "models" keyless None
           empty_disk [] [] "note" (discovered_property "String" None)).
  - reflexivity.
  - apply NoDup_singleton.
  - reflexivity.
  - intros q other Hin. by apply elem_of_nil in Hin.
Defined.

Lemma customer_collision_free : collision_free (properties customer).
Proof.
  split.
  - intros k prop c H. moved_inv H. reflexivity.
  - intros k1 prop1 k2 prop2 c H1 H2. moved_inv H1; moved_inv H2. reflexivity.
Defined.

Lemma saveModel_rekeys_under_column_name_witness :
  exists m1,
    reconcile customer = (Normal tt, m1)
    /\ (forall p prop c, moved (properties customer) p prop c ->
          obj_get p (properties m1) = None
          /\ obj_get c (properties m1) = Some prop)
    /\ (forall modelsPath overwrite fs after fields fs',
          saveModel posix_join modelsPath (Some customer) overwrite fs
          = (Normal (after, CbOk (Some (JObj fields))), fs') ->
          forall p prop c, moved (properties customer) p prop c ->
            (p ∉ obj_keys (persisted_properties (JObj fields)))
            /\ (c ∈ obj_keys (persisted_properties (JObj fields)))).
Proof.
  apply (saveModel_rekeys_under_column_name posix_join customer).
  - apply NoDup_cons. split; [|apply NoDup_singleton].
    intros Hin. apply list_elem_of_singleton in Hin. discriminate Hin.
  - intros k prop Hget. simpl in Hget.
    repeat case_decide; simplify_eq; eexists; reflexivity.
  - apply customer_collision_free.
Defined.


Lemma discoverModels_tables_not_found_witness :
  let ds := source ["customer"] build_customer in
  let w := bound_to ds (Some ["customer"; "orders"]) empty_disk in
  discoverModels posix_join no_app w
  = (Normal (CbErr (Error "Tables not found: orders")),
     update_opts (set_tablesList ["orders"])
       (update_opts (set_schema (Some "shop")) w))
  /\ forall x, occurrences x ["orders"]
               = occurrences x ["customer"; "orders"]
                 - occurrences x (Table.name <$> [Table.mk "customer" (Some "shop")]).
Proof.
  intros ds w.
  apply (discoverModels_tables_not_found posix_join no_app w w ds
           (fun _ => CbOk [Table.mk "customer" (Some "shop")])
           [Table.mk "customer" (Some "shop")] ["customer"; "orders"]).
  - reflexivity.
  - reflexivity.
  - reflexivity.
  - reflexivity.
  - reflexivity.
  - vm_compute. discriminate.
Defined.

Lemma discoverModels_duplicate_request_witness :
  let ds := source ["customer"] build_customer in
  let w := bound_to ds (Some ["customer"; "customer"]) empty_disk in
  (discoverModels posix_join no_app w).1
  = Normal (CbErr (Error "Tables not found: customer"))
  /\ occurrences "customer" ["customer"] = 1
  /\ "customer" ∈ ["customer"].
Proof.
  intros ds w.
  apply (discoverModels_duplicate_request posix_join no_app w w ds
           (fun _ => CbOk [Table.mk "customer" (Some "shop")])
           [Table.mk "customer" (Some "shop")] ["customer"; "customer"]
           "customer"); reflexivity.
Defined.

Lemma discoverModels_consumes_tablesList_witness :
  let ds := source ["customer"] build_customer in
  let w := bound_to ds (Some ["orders"; "customer"]) empty_disk in
  Options.tablesList (opts (discoverModels posix_join no_app w).2)
  = Some ["orders"].
Proof.
  intros ds w.
  apply (discoverModels_consumes_tablesList posix_join no_app w w ds
           (fun _ => CbOk [Table.mk "customer" (Some "shop")])
           [Table.mk "customer" (Some "shop")] ["orders"; "customer"]);
    reflexivity.
Defined.

(** ** Where the code departs from its specification *)

(** C1. A model whose property has no [mysql] does not make the run call
    back with an error: the process exits, in [saveModel] and so in
    [discoverModels], and no callback is called at all. *)
Lemma discoverModels_keyless_exits :
  let w := bound_to (source ["keyless"] build_keyless) None empty_disk in
  obj_get "note" (properties keyless) = Some (discovered_property "String" None)
  /\ Property.mysql (discovered_property "String" None) = None
  /\ (saveModel posix_join "app/common/models" (Some keyless) None empty_disk).1
     = Exit 1
  /\ (discoverModels posix_join no_app w).1 = Exit 1
  /\ forall err, (discoverModels posix_join no_app w).1 ≠ Normal (CbErr err).
Proof.
  intros w. repeat split; try (vm_compute; reflexivity).
  intros err. vm_compute. discriminate.
Qed.

(** A property without [mysql] that is overwritten before the loop gets to
    its key is never seen: the save goes through. *)
Lemma saveModel_shadowed_is_written :
  obj_get "b" (properties shadowed) = Some (discovered_property "Number" None)
  /\ exists after written fs',
       saveModel posix_join "models" (Some shadowed) None empty_disk
       = (Normal (after, CbOk (Some written)), fs')
       /\ obj_keys (persisted_properties written) = ["b"].
Proof.
  split; [reflexivity|]. eexists _, _, _.
  split; [vm_compute; reflexivity | reflexivity].
Qed.

(** C5. The table with the columns [fooBar] and [foo_bar]: the property
    discovered as [fooBar] has the column name [foo_bar], yet the written
    definition has a property under [fooBar] and none under [foo_bar]. *)
Lemma saveModel_clash_keeps_discovered_key :
  moved (properties clash) "fooBar"
    (discovered_property "Number" (column "foo_bar")) "foo_bar"
  /\ exists after written fs',
       saveModel posix_join "models" (Some clash) None empty_disk
       = (Normal (after, CbOk (Some written)), fs')
       /\ obj_keys (persisted_properties written) = ["fooBar"]
       /\ "fooBar" ∈ obj_keys (persisted_properties written)
       /\ "foo_bar" ∉ obj_keys (persisted_properties written).
Proof.
  split.
  - repeat split. discriminate.
  - eexists _, _, _. split; [vm_compute; reflexivity|].
    split; [reflexivity|]. split.
    + apply list_elem_of_singleton. reflexivity.
    + intros Hin. apply list_elem_of_singleton in Hin. discriminate Hin.
Qed.


(** C7. With the target file in place and [overwrite] false, a model whose
    property has no [mysql] is not reported as skipped: the process exits in
    the renaming loop, before the file is looked for, and the callback is
    never called. *)
Lemma saveModel_keyless_existing_exits :
  fileExists (posix_join "models" (name keyless +:+ ".json")) keyless_disk = true
  /\ saveModel posix_join "models" (Some keyless) (Some false) keyless_disk
     = (Exit 1, keyless_disk)
  /\ forall after result,
       (saveModel posix_join "models" (Some keyless) (Some false) keyless_disk).1
       ≠ Normal (after, result).
Proof.
  split; [vm_compute; reflexivity|]. split; [vm_compute; reflexivity|].
  intros after result. vm_compute. discriminate.
Qed.

(** C8. After a run in which the requested table is found, the list the
    caller passed is empty. *)
Lemma discoverModels_splices_callers_list :
  let w := bound_to (source ["customer"] build_customer) (Some ["customer"])
             empty_disk in
  Options.tablesList (opts w) = Some ["customer"]
  /\ Options.tablesList (opts (discoverModels posix_join no_app w).2) = Some []
  /\ Options.tablesList (opts (discoverModels posix_join no_app w).2)
     ≠ Options.tablesList (opts w).
Proof.
  intros w. split; [reflexivity|]. split; [vm_compute; reflexivity|].
  vm_compute. discriminate.
Qed.

(** ** The run after a failed build *)

(** The final callback of [async.mapSeries] does not look at its error. *)
Lemma persistModels_ignores_error path_join err models :
  persistModels path_join (Some err) models = persistModels path_join None models.
Proof. reflexivity. Qed.

(** The series of saves stops at the first save that fails: the later models
    are handed back untouched. *)
Lemma eachSeries_halts_at_first_error {S A R} (x x' : A) (rest : list A)
    (iterator : A -> M S (A * Callback R)) (s s' : S) (err : JsError) :
  iterator x s = (Normal (x', CbErr err), s') ->
  eachSeries (x :: rest) iterator s = (Normal (x' :: rest, Some err), s').
Proof. intros Hx. simpl. unfold mbind, M_bind. by rewrite Hx. Qed.

(** C2, on the code. Building [customer] works and building [orders] fails
    with ['connection lost']: the run still makes the models folder and
    writes Customer.json, and calls back with the [TypeError] of saving an
    undefined model instead of the error of the build. *)
Theorem discoverModels_goes_on_after_failed_build :
  let w := bound_to (source ["customer"; "orders"] build_first_only) None
             empty_disk in
  let run := discoverModels posix_join no_app w in
  build_first_only "orders" = CbErr (Error "connection lost")
  /\ run.1 = Normal (CbErr (TypeError "Cannot read property 'settings' of undefined"))
  /\ nodes (disk w) !! "app/common/models" = None
  /\ nodes (disk run.2) !! "app/common/models" = Some Directory
  /\ nodes (disk run.2) !! "app/common/models/Customer.json"
     = Some (File (JsonText (model_to_json customer_cased))).
Proof.
  intros w run. repeat split; vm_compute; reflexivity.
Qed.

(** * Further properties *)

(** ** More on objects *)

Section MoreObjectFacts.
Context {A : Type}.
Implicit Types (k : string) (v : A) (o : obj A).

Lemma obj_set_fresh k v o : obj_get k o = None -> obj_set k v o = o ++ [(k, v)].
Proof.
  induction o as [|[k0 v0] o IH]; simpl; [done|].
  case_decide; [done|]. intros Hget. by rewrite IH.
Qed.

Lemma obj_set_id k v o : obj_get k o = Some v -> obj_set k v o = o.
Proof.
  induction o as [|[k0 v0] o IH]; simpl; [done|].
  case_decide; subst.
  - by intros [= ->].
  - intros Hget. by rewrite IH.
Qed.

Lemma obj_delete_elem_of_ne k k' v' o : (k', v') ∈ obj_delete k o -> k' ≠ k.
Proof.
  induction o as [|[k0 v0] o IH]; simpl; [by intros ?%elem_of_nil|].
  case_decide; subst; [done|]. rewrite elem_of_cons. intros [[= -> ->]|?]; auto.
Qed.
End MoreObjectFacts.

(** ** The registry *)

(** A model named like something every object inherits, and not in the
    registry, is not registered: the discoverer stays as it is. *)
Lemma addModel_inherited_name (self : Discoverer) (model : ModelDefinition)
    (config : Registry) :
  modelConfig self = Some config ->
  obj_get (name model) config = None ->
  inherited (name model) = true ->
  addModel model self = (Normal tt, self).
Proof.
  intros Hconfig Hnew Hinh. unfold addModel. run.
  by rewrite Hconfig, Hnew, Hinh.
Qed.

(** The model named [constructor] is not registered. *)
Lemma addModel_constructor_not_registered :
  addModel constructor_model with_registry = (Normal tt, with_registry).
Proof. reflexivity. Qed.

(** X1. A model the registry does not know, and whose name is neither one
    that every object inherits nor a canonical number, is added after all
    the entries there are, [_meta] included, as [{dataSource, public}] with
    [public] false unless the model says otherwise; nothing else changes. *)
Theorem addModel_appends_new_entry (self : Discoverer)
    (model : ModelDefinition) (config : Registry) :
  modelConfig self = Some config ->
  obj_get (name model) config = None ->
  inherited (name model) = false ->
  array_index (name model) = false ->
  addModel model self
  = (Normal tt,
     set_modelConfig
       (config ++ [(name model,
                    [("dataSource", string_or_null (dsName self));
                     ("public", or_false (isPublic model))])]) self).
Proof.
  intros Hconfig Hnew Hinh _. unfold addModel. run.
  rewrite Hconfig, Hnew, Hinh. simpl. by rewrite obj_set_fresh.
Qed.

(** X2. Updating a known model keeps the registry's entries in their order
    and, in the entry of the model, every field other than [dataSource] and
    [public]. *)
Theorem addModel_keeps_other_fields (self : Discoverer)
    (model : ModelDefinition) (config : Registry) (entry : obj json) :
  modelConfig self = Some config ->
  obj_get (name model) config = Some entry ->
  exists config' entry',
    addModel model self = (Normal tt, set_modelConfig config' self)
    /\ obj_keys config' = obj_keys config
    /\ obj_get (name model) config' = Some entry'
    /\ forall field, field ≠ "dataSource" -> field ≠ "public" ->
         obj_get field entry' = obj_get field entry.
Proof.
  intros Hconfig Hentry. eexists _, _. split; [|split; [|split]].
  - unfold addModel. run. rewrite Hconfig, Hentry. reflexivity.
  - rewrite obj_keys_set. rewrite decide_True; [done|].
    apply obj_get_is_Some. eauto.
  - apply obj_get_set_eq.
  - intros field Hds Hpublic. by rewrite !obj_get_set_ne.
Qed.

(** X3. Registering the same model twice is the same as registering it
    once. *)
Theorem addModel_idempotent (self : Discoverer) (model : ModelDefinition) :
  (addModel model ;; addModel model) self = addModel model self.
Proof.
  unfold addModel. run.
  destruct (modelConfig self) as [config|] eqn:Hconfig; simpl; [|done].
  destruct (obj_get (name model) config) as [entry|] eqn:Hentry; simpl.
  - rewrite obj_get_set_eq.
    set (d := string_or_null (dsName self)).
    set (p := or_false (isPublic model)).
    set (entry' := obj_set "public" p (obj_set "dataSource" d entry)).
    assert (obj_set "dataSource" d entry' = entry') as ->.
    { apply obj_set_id. unfold entry'.
      rewrite obj_get_set_ne by done. apply obj_get_set_eq. }
    assert (obj_set "public" p entry' = entry') as ->.
    { apply obj_set_id. apply obj_get_set_eq. }
    rewrite (obj_set_id (name model) entry') by apply obj_get_set_eq.
    reflexivity.
  - destruct (inherited (name model)) eqn:Hinh; simpl.
    + by rewrite Hconfig, Hentry.
    + rewrite obj_get_set_eq. simpl.
      rewrite (obj_set_id (name model)) by apply obj_get_set_eq.
      reflexivity.
Qed.




(** ** Binding a data source *)

Lemma setDataSource_loop_first (dsName src : string) (ds : DataSource)
    (before after : obj DataSource) (self : Discoverer) :
  toLowerCase src = toLowerCase dsName ->
  (forall k d, (k, d) ∈ before -> toLowerCase k ≠ toLowerCase dsName) ->
  setDataSource_loop dsName (before ++ (src, ds) :: after) self
  = match discoverModelDefinitions ds with
    | Some _ => (Normal tt, bind_source dsName ds self)
    | None =>
        (Throw (Error "Data source connector do not support discovery."), self)
    end.
Proof.
  intros Hsrc. induction before as [|[k d] before IH]; intros Hbefore; simpl.
  - rewrite bool_decide_eq_true_2 by done.
    by destruct (discoverModelDefinitions ds).
  - rewrite bool_decide_eq_false_2.
    + apply IH. intros k' d' Hin. apply (Hbefore k' d'). by right.
    + intros Heq. apply (Hbefore k d); [left | done].
Qed.

(** X5. The data source is looked up by name without regard to case, and
    the first entry of the application that matches decides: if its
    connector can discover, the discoverer is bound to it under the name as
    it was given; if not, the call fails, whatever entries follow. *)
Theorem setDataSource_first_match_decides (dsName src : string)
    (ds : DataSource) (before after : obj DataSource) (a : App)
    (self : Discoverer) :
  nonempty dsName = true ->
  app self = Some a ->
  dataSources a = before ++ (src, ds) :: after ->
  toLowerCase src = toLowerCase dsName ->
  (forall k d, (k, d) ∈ before -> toLowerCase k ≠ toLowerCase dsName) ->
  setDataSource dsName self
  = match discoverModelDefinitions ds with
    | Some _ => (Normal tt, bind_source dsName ds self)
    | None =>
        (Throw (Error "Data source connector do not support discovery."), self)
    end.
Proof.
  intros Hname Happ Hsources Hsrc Hbefore. unfold setDataSource.
  rewrite Hname. run. rewrite Happ, Hsources.
  by apply setDataSource_loop_first.
Qed.

Lemma setDataSource_loop_outcome (dsName : string) (sources : obj DataSource)
    (self self' : Discoverer) (r : Completion unit) :
  setDataSource_loop dsName sources self = (r, self') ->
  (exists e, r = Throw e /\ self' = self)
  \/ (r = Normal tt
      /\ exists src ds, (src, ds) ∈ sources
           /\ toLowerCase src = toLowerCase dsName
           /\ is_Some (discoverModelDefinitions ds)
           /\ self' = bind_source dsName ds self).
Proof.
  induction sources as [|[src ds] sources IH]; simpl.
  - intros [= <- <-]. left. eauto.
  - case_bool_decide as Hsrc.
    + destruct (discoverModelDefinitions ds) as [discover|] eqn:Hdiscover.
      * intros [= <- <-]. right. split; [done|]. exists src, ds.
        repeat split; [left | done | by rewrite Hdiscover].
      * intros [= <- <-]. left. eauto.
    + intros Hrun. destruct (IH Hrun) as [?|(-> & src' & ds' & Hin & ?)]; [by left|].
      right. split; [done|]. exists src', ds'. split; [by right | done].
Qed.

(** X6. [setDataSource] never half-binds: either it throws and the
    discoverer is as it was, or it returns and the discoverer is bound,
    under the name given, to a data source of the application whose name
    matches without regard to case and whose connector can discover. *)
Theorem setDataSource_binds_or_leaves (dsName : string)
    (self self' : Discoverer) (r : Completion unit) :
  setDataSource dsName self = (r, self') ->
  (exists e, r = Throw e /\ self' = self)
  \/ (r = Normal tt
      /\ exists a src ds, app self = Some a
           /\ (src, ds) ∈ dataSources a
           /\ toLowerCase src = toLowerCase dsName
           /\ is_Some (discoverModelDefinitions ds)
           /\ self' = bind_source dsName ds self).
Proof.
  unfold setDataSource. destruct (nonempty dsName); simpl.
  - run. destruct (app self) as [a|] eqn:Happ.
    + intros Hrun. apply setDataSource_loop_outcome in Hrun
        as [?|(-> & src & ds & ?)]; [by left|].
      right. split; [done|]. by exists a, src, ds.
    + intros [= <- <-]. left. eauto.
  - intros [= <- <-]. left. eauto.
Qed.

(** ** Casing the types *)

Lemma case_loop_run done todo (m : ModelDefinition) :
  properties m = done ++ todo ->
  NoDup (obj_keys (done ++ todo)) ->
  if all_functions todo
  then for_keys (obj_keys todo) properties caseProperty m
       = (Normal tt,
          set_properties (done ++ (prod_map id lower_type <$> todo)) m)
  else exists m',
         for_keys (obj_keys todo) properties caseProperty m
         = (Throw (TypeError "Cannot read property 'toLowerCase' of undefined"),
            m').
Proof.
  revert done m. induction todo as [|[k prop] todo IH]; intros done m Hprops Hnd.
  - simpl. rewrite app_nil_r in *. destruct m. simpl in *. by subst.
  - change (obj_keys ((k, prop) :: todo)) with (k :: obj_keys todo).
    rewrite for_keys_cons.
    assert (k ∉ obj_keys done) as Hfresh.
    { unfold obj_keys in *. rewrite fmap_app in Hnd.
      apply NoDup_app in Hnd as (_ & Hd & _). intros Hin. apply (Hd _ Hin). left. }
    assert (obj_get k (properties m) = Some prop) as Hget.
    { rewrite Hprops, obj_get_app.
      apply obj_get_None in Hfresh as ->. simpl. by rewrite decide_True. }
    replace (obj_has k (properties m)) with true
      by (symmetry; apply obj_has_spec; eauto).
    assert (caseProperty k m
            = match Property.type prop with
              | TyFunction fname =>
                  (Normal tt,
                   set_properties
                     (obj_set k (set_type (TyString (toLowerCase fname)) prop)
                        (properties m)) m)
              | TyString _ =>
                  (Throw (TypeError "Cannot read property 'toLowerCase' of undefined"),
                   m)
              end) as Hstep.
    { unfold caseProperty. run. rewrite Hget. by destruct (Property.type prop). }
    rewrite Hstep. clear Hstep. unfold all_functions. simpl.
    destruct (Property.type prop) as [fname|] eqn:Hty; simpl; [|eauto].
    specialize (IH (done ++ [(k, lower_type prop)])
      (set_properties
         (obj_set k (set_type (TyString (toLowerCase fname)) prop) (properties m))
         m)).
    rewrite <- !app_assoc in IH. simpl in IH.
    assert (lower_type prop = set_type (TyString (toLowerCase fname)) prop) as Hlow
      by (unfold lower_type; by rewrite Hty).
    rewrite Hlow in IH.
    fold (all_functions todo). destruct (all_functions todo).
    + rewrite IH; [by rewrite Hlow| |].
      * rewrite Hprops. by apply obj_set_app_fresh.
      * unfold obj_keys in *. rewrite fmap_app in *. exact Hnd.
    + apply IH.
      * rewrite Hprops. by apply obj_set_app_fresh.
      * unfold obj_keys in *. rewrite fmap_app in *. exact Hnd.
Qed.

(** X7. [casePropertiesDataType] succeeds exactly when the type of every
    property is a function: it then leaves the properties under their keys,
    in their order, each with the lowercase name of its type for type; when
    some type is already a string, as after a first casing, it throws a
    [TypeError]. *)
Theorem casePropertiesDataType_needs_functions (m : ModelDefinition) :
  NoDup (obj_keys (properties m)) ->
  if all_functions (properties m)
  then casePropertiesDataType m
       = (Normal tt,
          set_properties (prod_map id lower_type <$> properties m) m)
  else exists m',
         casePropertiesDataType m
         = (Throw (TypeError "Cannot read property 'toLowerCase' of undefined"),
            m').
Proof.
  intros Hnd. exact (case_loop_run [] (properties m) m eq_refl Hnd).
Qed.

(** ** The renaming, whatever the collisions *)

Lemma rekey_loop_columns ks (m m' : ModelDefinition) :
  for_keys ks properties rekeyProperty m = (Normal tt, m') ->
  NoDup (obj_keys (properties m)) ->
  (forall k prop, (k, prop) ∈ properties m -> k ∈ ks \/ column_of prop = Some k) ->
  forall k prop, (k, prop) ∈ properties m' -> column_of prop = Some k.
Proof.
  revert m. induction ks as [|q ks IH]; intros m.
  - intros [= <-] _ Hinv k prop Hin.
    destruct (Hinv _ _ Hin) as [?%elem_of_nil|?]; done.
  - rewrite for_keys_cons. destruct (obj_has q (properties m)) eqn:Hhas.
    + apply obj_has_spec in Hhas as [v Hv].
      destruct (Property.mysql v) as [my|] eqn:Hmy;
        [|by rewrite (rekeyProperty_exit _ _ _ Hv Hmy)].
      destruct (decide (columnName my = q)) as [Heq|Hne].
      * rewrite (rekeyProperty_keep _ _ _ _ Hv Hmy Heq). intros Hrun Hnd Hinv.
        apply (IH _ Hrun Hnd). intros k prop Hin.
        destruct (Hinv _ _ Hin) as [[->|?]%elem_of_cons|?]; auto.
        right. rewrite (obj_elem_of_get _ _ _ Hnd Hin) in Hv.
        injection Hv as ->. unfold column_of. rewrite Hmy. simpl. by f_equal.
      * rewrite (rekeyProperty_move _ _ _ _ Hv Hmy Hne). intros Hrun Hnd Hinv.
        apply (IH _ Hrun).
        { simpl. by apply obj_delete_NoDup, obj_set_NoDup. }
        simpl. intros k prop Hin.
        pose proof (obj_delete_elem_of_ne _ _ _ _ Hin) as Hkq.
        apply obj_delete_elem_of, obj_set_elem_of in Hin as [[= -> ->]|Hin].
        -- right. unfold column_of. by rewrite Hmy.
        -- destruct (Hinv _ _ Hin) as [[->|?]%elem_of_cons|?]; auto. done.
    + intros Hrun Hnd Hinv. apply (IH _ Hrun Hnd). intros k prop Hin.
      destruct (Hinv _ _ Hin) as [[->|?]%elem_of_cons|?]; auto.
      exfalso. assert (obj_has q (properties m) = true) as Htrue.
      { apply obj_has_spec. rewrite (obj_elem_of_get _ _ _ Hnd Hin). eauto. }
      congruence.
Qed.

(** X8. Whenever the renaming of lines 105-142 completes, every property of
    the model sits under its own column name, collisions or not. *)
Theorem reconcile_keys_are_column_names (model m1 : ModelDefinition) :
  NoDup (obj_keys (properties model)) ->
  reconcile model = (Normal tt, m1) ->
  forall k prop, (k, prop) ∈ properties m1 -> column_of prop = Some k.
Proof.
  intros Hnd Hrec.
  unfold reconcile in Hrec.
  destruct (forceTableName_spec model) as (m0 & Hforce & Hprops0 & _).
  unfold mbind, M_bind in Hrec. rewrite Hforce in Hrec.
  unfold rekeyProperties, for_in in Hrec.
  apply (rekey_loop_columns _ _ _ Hrec); [by rewrite Hprops0|].
  intros k prop Hin. left. apply obj_get_is_Some.
  rewrite (obj_elem_of_get k prop); [eauto | by rewrite Hprops0 | done].
Qed.

Lemma rekey_loop_frame ks (m m' : ModelDefinition) r :
  for_keys ks properties rekeyProperty m = (r, m') ->
  settings m' = settings m /\ isPublic m' = isPublic m.
Proof.
  revert m. induction ks as [|q ks IH]; intros m.
  - by intros [= _ <-].
  - rewrite for_keys_cons. destruct (obj_has q (properties m)); [|apply IH].
    assert (forall r1 m1, rekeyProperty q m = (r1, m1) ->
              settings m1 = settings m /\ isPublic m1 = isPublic m) as Hstep.
    { unfold rekeyProperty. run. intros r1 m1.
      destruct (obj_get q (properties m)) as [prop|]; [|by intros [= _ <-]].
      destruct (Property.mysql prop) as [my|]; [|by intros [= _ <-]].
      case_bool_decide; by intros [= _ <-]. }
    destruct (rekeyProperty q m) as [[[]|e|c] m1] eqn:Hq;
      destruct (Hstep _ _ eq_refl) as [Hs Hp].
    + intros Hrun. apply IH in Hrun as [? ?]. split; congruence.
    + by intros [= _ <-].
    + by intros [= _ <-].
Qed.

Lemma rekey_loop_fixed ks (m : ModelDefinition) :
  (forall k prop, obj_get k (properties m) = Some prop -> column_of prop = Some k) ->
  for_keys ks properties rekeyProperty m = (Normal tt, m).
Proof.
  intros Hcols. induction ks as [|q ks IH]; [done|].
  rewrite for_keys_cons. destruct (obj_has q (properties m)) eqn:Hhas; [|done].
  apply obj_has_spec in Hhas as [v Hv].
  pose proof (Hcols _ _ Hv) as Hcol. unfold column_of in Hcol.
  destruct (Property.mysql v) as [my|] eqn:Hmy; [|done].
  injection Hcol as Hcol.
  by rewrite (rekeyProperty_keep _ _ _ _ Hv Hmy Hcol).
Qed.

Lemma forceTableName_forced (m : ModelDefinition) :
  forall my t, Settings.mysql (settings m) = Some my -> table my = Some t ->
    nonempty t = true -> name (forceTableName m).2 = t.
Proof.
  intros my t Hmy Ht Hne. unfold forceTableName. run. rewrite Hmy, Ht, Hne. simpl.
  case_bool_decide; simpl; done.
Qed.

Lemma forceTableName_fixed (m : ModelDefinition) :
  (forall my t, Settings.mysql (settings m) = Some my -> table my = Some t ->
     nonempty t = true -> name m = t) ->
  forceTableName m = (Normal tt, m).
Proof.
  intros Hwins. unfold forceTableName. run.
  destruct (Settings.mysql (settings m)) as [my|] eqn:Hmy; [|done].
  destruct (table my) as [t|] eqn:Ht; [|done].
  destruct (nonempty t) eqn:Hne; [|done]. simpl.
  by rewrite bool_decide_eq_true_2 by eauto.
Qed.

Lemma reconcile_columns (model m1 : ModelDefinition) :
  NoDup (obj_keys (properties model)) ->
  reconcile model = (Normal tt, m1) ->
  NoDup (obj_keys (properties m1))
  /\ (forall k prop, (k, prop) ∈ properties m1 -> column_of prop = Some k)
  /\ settings m1 = settings model
  /\ isPublic m1 = isPublic model
  /\ name m1 = name (forceTableName model).2.
Proof.
  intros Hnd Hrec.
  pose proof (reconcile_name model) as Hname. rewrite Hrec in Hname.
  simpl in Hname. unfold reconcile in Hrec.
  destruct (forceTableName_spec model) as (m0 & Hforce & Hprops0 & Hset0 & Hpub0).
  unfold mbind, M_bind in Hrec. rewrite Hforce in Hrec.
  unfold rekeyProperties, for_in in Hrec.
  destruct (rekey_loop_preserves _ _ _ Hrec) as (Hnd1 & _); [by rewrite Hprops0|].
  destruct (rekey_loop_frame _ _ _ _ Hrec) as [Hset1 Hpub1].
  split; [done|]. split; [|repeat split; congruence].
  apply (rekey_loop_columns _ _ _ Hrec); [by rewrite Hprops0|].
  intros k prop Hin. left. apply obj_get_is_Some.
  rewrite (obj_elem_of_get k prop); [eauto | by rewrite Hprops0 | done].
Qed.

(** A model whose name is the table's and whose properties sit under their
    column names is left alone by the renaming. *)
Lemma reconcile_fixed (m : ModelDefinition) :
  (forall my t, Settings.mysql (settings m) = Some my -> table my = Some t ->
     nonempty t = true -> name m = t) ->
  (forall k prop, obj_get k (properties m) = Some prop -> column_of prop = Some k) ->
  reconcile m = (Normal tt, m).
Proof.
  intros Hwins Hcols. unfold reconcile, mbind, M_bind.
  rewrite (forceTableName_fixed _ Hwins).
  unfold rekeyProperties, for_in. by apply rekey_loop_fixed.
Qed.

(** X9. The renaming is idempotent: run on the model it has left, it
    changes nothing. *)
Theorem reconcile_idempotent (model m1 : ModelDefinition) :
  NoDup (obj_keys (properties model)) ->
  reconcile model = (Normal tt, m1) ->
  reconcile m1 = (Normal tt, m1).
Proof.
  intros Hnd Hrec.
  destruct (reconcile_columns _ _ Hnd Hrec) as (Hnd1 & Hcols & Hset & _ & Hname).
  apply reconcile_fixed.
  - intros my t Hmy Ht Hne. rewrite Hname. rewrite Hset in Hmy.
    by apply (forceTableName_forced model my t).
  - intros k prop Hget. apply Hcols. by apply obj_get_elem_of.
Qed.

(** ** More on saving a model *)

Section MoreSaveModel.
Variable path_join : string -> string -> string.

(** Either a call writes nothing, or it gets through the renaming and the
    casing and writes the one file it calls back with. *)
Lemma saveModel_outcome (modelsPath : string) (model : ModelDefinition)
    (overwrite : option bool) (fs : FileSystem) :
  let target :=
    path_join modelsPath (name (forceTableName model).2 +:+ ".json") in
  let run := saveModel path_join modelsPath (Some model) overwrite fs in
  (run.2 = fs /\ forall after w, run.1 ≠ Normal (after, CbOk (Some w)))
  \/ exists m1 m2 w,
       reconcile model = (Normal tt, m1)
       /\ casePropertiesDataType m1 = (Normal tt, m2)
       /\ run = (Normal (Some m2, CbOk (Some w)),
                 fs_put target (File (JsonText w)) fs)
       /\ (target ∉ denied fs)
       /\ nodes fs !! target ≠ Some Directory
       /\ (forall (s : ModelDefinition * FileSystem),
             assign_properties w (properties_to_json (properties m2)) s
             = (Normal w, s))
       /\ (nodes fs !! target = None -> w = model_to_json m2).
Proof.
  intros target run. subst run.
  pose proof (reconcile_name model) as Hname. fold target.
  unfold saveModel, saveModel_try. run.
  destruct (reconcile model) as [[[]|e|c] m1] eqn:Hrec; simpl in *;
    [|left; split; [done|intros ? ?; discriminate]..].
  rewrite Hname. fold target.
  destruct (fileExists target fs) eqn:Hexist; simpl.
  - destruct (bool_decide (overwrite = Some true)); simpl;
      [|left; split; [done|intros ? ?; discriminate]].
    destruct (casePropertiesDataType m1) as [[[]|e|c] m2] eqn:Hcase; simpl;
      [|left; split; [done|intros ? ?; discriminate]..].
    unfold readFileSync.
    destruct (nodes fs !! target) as [[|[doc|raw]]|] eqn:Hnode; simpl;
      try solve [left; split; [done|intros ? ?; discriminate]].
    destruct doc; simpl;
      try solve [left; split; [done|intros ? ?; discriminate]];
      unfold writeFileSync; simpl;
      (destruct (decide (target ∈ denied fs)) as [Hden|Hden]; simpl;
       [left; split; [done|intros ? ?; discriminate]|]);
      rewrite Hnode; simpl;
      right; eexists m1, m2, _;
      (split; [reflexivity|]); (split; [exact Hcase|]); (split; [reflexivity|]);
      (split; [exact Hden|]); (split; [discriminate|]);
      (split; [|discriminate]);
      intros st; try reflexivity.
    simpl. run. by rewrite (obj_set_id "properties") by apply obj_get_set_eq.
  - destruct (casePropertiesDataType m1) as [[[]|e|c] m2] eqn:Hcase; simpl;
      [|left; split; [done|intros ? ?; discriminate]..].
    unfold writeFileSync; simpl.
    destruct (decide (target ∈ denied fs)) as [Hden|Hden]; simpl;
      [left; split; [done|intros ? ?; discriminate]|].
    destruct (nodes fs !! target) as [node|] eqn:Hnode.
    { unfold fileExists in Hexist. rewrite Hnode in Hexist.
      by rewrite bool_decide_eq_true_2 in Hexist by eauto. }
    simpl. right. exists m1, m2, (model_to_json m2).
    repeat split; try done.
Qed.

(** X10. [saveModel] changes the file system only by the write it calls
    back with: a call that ends in an error, in a skip or in the exit of the
    process leaves every file as it was, and a call that writes leaves every
    path but the target as it was. *)
Theorem saveModel_touches_only_target (modelsPath : string)
    (model : ModelDefinition) (overwrite : option bool) (fs : FileSystem) :
  let target :=
    path_join modelsPath (name (forceTableName model).2 +:+ ".json") in
  let run := saveModel path_join modelsPath (Some model) overwrite fs in
  (forall path, path ≠ target -> nodes run.2 !! path = nodes fs !! path)
  /\ denied run.2 = denied fs
  /\ ((forall after w, run.1 ≠ Normal (after, CbOk (Some w))) -> run.2 = fs).
Proof.
  intros target run.
  pose proof (saveModel_outcome modelsPath model overwrite fs) as Hout.
  cbv zeta in Hout. fold target in Hout. fold run in Hout.
  destruct Hout as [[Hsame _]|(m1 & m2 & w & _ & _ & Hrun & _)].
  - rewrite Hsame. done.
  - rewrite Hrun. simpl. split; [|split; [done|]].
    + intros path Hpath. by apply lookup_insert_ne.
    + intros Hnot. by destruct (Hnot (Some m2) w).
Qed.

(** X11. When no file is in the way, the definition is written whatever
    [overwrite] says: the file and the callback get the model as renamed and
    cased, with its name, properties and settings. *)
Theorem saveModel_creates_new_file (modelsPath : string)
    (model m1 m2 : ModelDefinition) (overwrite : option bool)
    (fs : FileSystem) :
  let target := path_join modelsPath (name m1 +:+ ".json") in
  reconcile model = (Normal tt, m1) ->
  casePropertiesDataType m1 = (Normal tt, m2) ->
  nodes fs !! target = None ->
  target ∉ denied fs ->
  saveModel path_join modelsPath (Some model) overwrite fs
  = (Normal (Some m2, CbOk (Some (model_to_json m2))),
     fs_put target (File (JsonText (model_to_json m2))) fs).
Proof.
  intros target Hrec Hcase Hnode Hden.
  unfold saveModel, saveModel_try. run. rewrite Hrec. simpl. fold target.
  unfold fileExists. rewrite Hnode.
  rewrite bool_decide_eq_false_2 by (by intros [? ?]). simpl.
  rewrite Hcase. simpl. unfold writeFileSync.
  rewrite decide_False by done. by rewrite Hnode.
Qed.

(** X12. Saving the same discovery again, with [overwrite], is a no-op on
    the file: a call that has written a definition, repeated with the same
    discovered model on the file system it left, writes that definition
    again and leaves the file system as it is. *)
Theorem saveModel_again_changes_nothing (modelsPath : string)
    (model : ModelDefinition) (overwrite : option bool) (fs fs1 : FileSystem)
    (after : option ModelDefinition) (written : json) :
  saveModel path_join modelsPath (Some model) overwrite fs
  = (Normal (after, CbOk (Some written)), fs1) ->
  saveModel path_join modelsPath (Some model) (Some true) fs1
  = (Normal (after, CbOk (Some written)), fs1).
Proof.
  intros Hfirst.
  pose proof (saveModel_outcome modelsPath model overwrite fs) as Hout.
  cbv zeta in Hout.
  destruct Hout
    as [[_ Hnot]|(m1 & m2 & w & Hrec & Hcase & Hrun & Hden & Hdir & Hassign & _)].
  { exfalso. apply (Hnot after written). by rewrite Hfirst. }
  rewrite Hfirst in Hrun. injection Hrun as -> -> ->.
  pose proof (reconcile_name model) as Hname. rewrite Hrec in Hname.
  simpl in Hname. rewrite <- Hname in Hden |- *.
  set (target := path_join modelsPath (name m1 +:+ ".json")) in *.
  unfold saveModel, saveModel_try. run. rewrite Hrec. simpl. fold target.
  unfold fileExists. simpl. rewrite lookup_insert_eq.
  rewrite bool_decide_eq_true_2 by eauto. simpl.
  rewrite Hcase. simpl. unfold readFileSync. simpl. rewrite lookup_insert_eq.
  simpl. rewrite Hassign. simpl. unfold writeFileSync. simpl.
  rewrite decide_False by done.
  rewrite lookup_insert_eq. unfold fs_put. simpl.
  by rewrite insert_insert_eq.
Qed.

Lemma column_of_lower_type (prop : Property.t) :
  column_of (lower_type prop) = column_of prop.
Proof. unfold lower_type. by destruct (Property.type prop). Qed.

(** What a call that has written leaves of the model: renamed, cased, under
    the name of the table. *)
Lemma saveModel_written_model (modelsPath : string) (model m2 : ModelDefinition)
    (overwrite : option bool) (fs fs1 : FileSystem) (written : json) :
  NoDup (obj_keys (properties model)) ->
  saveModel path_join modelsPath (Some model) overwrite fs
  = (Normal (Some m2, CbOk (Some written)), fs1) ->
  let target :=
    path_join modelsPath (name (forceTableName model).2 +:+ ".json") in
  exists m1,
    reconcile model = (Normal tt, m1)
    /\ properties m2 = prod_map id lower_type <$> properties m1
    /\ Forall (fun kv => exists fname, Property.type kv.2 = TyFunction fname)
         (properties m1)
    /\ (forall k prop, (k, prop) ∈ properties m1 -> column_of prop = Some k)
    /\ name m2 = name (forceTableName model).2
    /\ settings m2 = settings model
    /\ fs1 = fs_put target (File (JsonText written)) fs
    /\ (nodes fs !! target = None -> written = model_to_json m2).
Proof.
  intros Hnd Hfirst target.
  pose proof (saveModel_outcome modelsPath model overwrite fs) as Hout.
  cbv zeta in Hout. fold target in Hout.
  destruct Hout as [[_ Hnot]|(m1 & m2' & w & Hrec & Hcase & Hrun & _ & _ & _ & Hnew)].
  { exfalso. apply (Hnot (Some m2) written). by rewrite Hfirst. }
  rewrite Hfirst in Hrun. injection Hrun as -> -> ->.
  destruct (reconcile_columns _ _ Hnd Hrec) as (Hnd1 & Hcols & Hset & _ & Hname).
  destruct (casePropertiesDataType_spec _ _ Hnd1 Hcase)
    as (Hprops2 & Hfun & Hname2 & Hset2 & _).
  exists m1. repeat split; try done; congruence.
Qed.

(** X13. A model object that has been written cannot be written again: its
    types are strings by then, and a second [saveModel] on it with
    [overwrite] calls back with a [TypeError] and leaves the file as it
    is. *)
Theorem saveModel_written_object_fails_again (modelsPath : string)
    (model m2 : ModelDefinition) (overwrite : option bool)
    (fs fs1 : FileSystem) (written : json) :
  NoDup (obj_keys (properties model)) ->
  properties m2 ≠ [] ->
  saveModel path_join modelsPath (Some model) overwrite fs
  = (Normal (Some m2, CbOk (Some written)), fs1) ->
  saveModel path_join modelsPath (Some m2) (Some true) fs1
  = (Normal (Some m2,
             CbErr (TypeError "Cannot read property 'toLowerCase' of undefined")),
     fs1).
Proof.
  intros Hnd Hsome Hfirst.
  destruct (saveModel_written_model _ _ _ _ _ _ _ Hnd Hfirst)
    as (m1 & Hrec & Hprops2 & Hfun & Hcols & Hname & Hset & Hfs & _).
  assert (reconcile m2 = (Normal tt, m2)) as Hrec2.
  { apply reconcile_fixed.
    - intros my t Hmy Ht Hne. rewrite Hname. rewrite Hset in Hmy.
      by apply (forceTableName_forced model my t).
    - intros k prop Hget. apply obj_get_elem_of in Hget.
      rewrite Hprops2 in Hget.
      apply list_elem_of_fmap in Hget as ([k1 p1] & [= -> ->] & Hin).
      rewrite column_of_lower_type. by apply Hcols. }
  destruct (properties m1) as [|[k1 p1] rest1] eqn:Hprops1;
    [by rewrite Hprops2 in Hsome|].
  apply Forall_cons in Hfun as [[fname Hty] _]. simpl in Hty.
  assert (casePropertiesDataType m2
          = (Throw (TypeError "Cannot read property 'toLowerCase' of undefined"),
             m2)) as Hcase2.
  { unfold casePropertiesDataType, for_in. rewrite Hprops2.
    change (obj_keys (prod_map id lower_type <$> (k1, p1) :: rest1))
      with (k1 :: obj_keys (prod_map id lower_type <$> rest1)).
    rewrite for_keys_cons.
    assert (obj_get k1 (properties m2) = Some (lower_type p1)) as Hget.
    { rewrite Hprops2. simpl. by rewrite decide_True. }
    replace (obj_has k1 (properties m2)) with true
      by (symmetry; apply obj_has_spec; eauto).
    unfold caseProperty. run. rewrite Hget.
    unfold lower_type. rewrite Hty. reflexivity. }
  unfold saveModel, saveModel_try. run. rewrite Hrec2. simpl.
  rewrite Hname. rewrite Hfs. unfold fileExists. simpl.
  rewrite lookup_insert_eq. rewrite bool_decide_eq_true_2 by eauto. simpl.
  by rewrite Hcase2.
Qed.

(** X14. The table name of the settings wins over the discovered name: with
    [settings.mysql.table] set, a definition that is written goes to
    [<table>.json], the model is left under the table's name, and a new file
    holds the model under that name. *)
Theorem saveModel_names_file_after_table (modelsPath : string)
    (model m2 : ModelDefinition) (overwrite : option bool)
    (fs fs1 : FileSystem) (written : json) (my : MysqlTable) (t : string) :
  let target := path_join modelsPath (t +:+ ".json") in
  NoDup (obj_keys (properties model)) ->
  Settings.mysql (settings model) = Some my ->
  table my = Some t ->
  nonempty t = true ->
  saveModel path_join modelsPath (Some model) overwrite fs
  = (Normal (Some m2, CbOk (Some written)), fs1) ->
  name m2 = t
  /\ fs1 = fs_put target (File (JsonText written)) fs
  /\ (nodes fs !! target = None -> written = model_to_json m2).
Proof.
  intros target Hnd Hmy Ht Hne Hfirst.
  destruct (saveModel_written_model _ _ _ _ _ _ _ Hnd Hfirst)
    as (m1 & _ & _ & _ & _ & Hname & _ & Hfs & Hnew).
  rewrite (forceTableName_forced model my t Hmy Ht Hne) in Hname, Hfs, Hnew.
  done.
Qed.
End MoreSaveModel.

(** ** More on the discovery run *)

Lemma indexOf_Some_pos x l idx : indexOf x l = Some idx -> 0 < occurrences x l.
Proof.
  revert idx. induction l as [|y l IH]; intros idx; simpl; [done|].
  rewrite occurrences_cons. case_decide; subst.
  - intros _. rewrite decide_True by done. lia.
  - destruct (indexOf x l) as [i|]; [|done]. intros _.
    specialize (IH i eq_refl). lia.
Qed.

(** X15. The filter keeps discovered tables in their order and never
    invents one; of each name it keeps as many tables as were discovered
    under it, but no more than the allow-list holds of that name. *)
Theorem filterTables_kept (tables : list Table.t) (wanted : list string) :
  sublist (filterTables tables wanted).1 tables
  /\ forall x,
       occurrences x (Table.name <$> (filterTables tables wanted).1)
       = occurrences x (Table.name <$> tables) `min` occurrences x wanted.
Proof.
  split.
  - revert wanted. induction tables as [|t tables IH]; intros wanted; simpl.
    + constructor.
    + destruct (indexOf (Table.name t) wanted); simpl.
      * by apply sublist_skip.
      * by apply sublist_cons.
  - intros x. revert wanted.
    induction tables as [|t tables IH]; intros wanted; csimpl.
    + unfold occurrences. simpl. lia.
    + rewrite occurrences_cons.
      destruct (indexOf (Table.name t) wanted) as [idx|] eqn:Hidx; csimpl.
      * rewrite occurrences_cons, IH, (indexOf_Some _ _ _ Hidx).
        apply indexOf_Some_pos in Hidx. case_decide; subst; lia.
      * rewrite IH. apply indexOf_None in Hidx. case_decide; subst; lia.
Qed.

Section MoreDiscoveryRun.
Variable path_join : string -> string -> string.
Variable require : string -> option App.

(** X16. An error of [discoverModelDefinitions] is what the run calls back
    with; apart from [options.schema], set before the call, nothing has
    changed. *)
Theorem discoverModels_connector_error (w w1 : World) (ds : DataSource)
    (discover : Options.t -> Callback (list Table.t)) (err : JsError) :
  let w2 := update_opts (set_schema (database ds)) w1 in
  bindOptions path_join require w = (Normal None, w1) ->
  dataSource (this w1) = Some ds ->
  discoverModelDefinitions ds = Some discover ->
  discover (opts w2) = CbErr err ->
  discoverModels path_join require w = (Normal (CbErr err), w2).
Proof.
  intros w2 Hbind Hds Hdiscover Herr.
  rewrite (discoverModels_discovered _ _ _ _ _ _ Hbind Hds Hdiscover).
  fold w2. by rewrite Herr.
Qed.

(** X17. When the models folder is missing and cannot be made, the run
    calls back with ['Unable to create models folder'] and saves nothing. *)
Theorem persistModels_folder_failure (err : option JsError)
    (models : list (option ModelDefinition)) (w : World) (root : string) :
  let modelsPath :=
    match given (Options.outputDir (opts w)) with
    | Some dir => path_join root dir
    | None => path_join root "common/models"
    end in
  appPath (this w) = Some root ->
  nodes (disk w) !! modelsPath = None ->
  modelsPath ∈ denied (disk w) ->
  persistModels path_join err models w
  = (Normal (CbErr (Error "Unable to create models folder")), w).
Proof.
  intros modelsPath Hroot Hnode Hden. unfold persistModels. run.
  assert (fileExists modelsPath (disk w) = false) as Hexist.
  { unfold fileExists. apply bool_decide_eq_false_2. rewrite Hnode. by intros [? ?]. }
  rewrite Hroot. fold modelsPath. rewrite Hexist.
  unfold on_disk, mkDir. rewrite decide_True by done. simpl.
  by destruct w.
Qed.

Lemma mapSeries_buildModel_inv (ds : DataSource) (tables : list Table.t)
    (w w' : World) (err : option JsError)
    (results : list (option ModelDefinition)) :
  mapSeries None tables (buildModel ds) w = (Normal (err, results), w') ->
  w' = w
  /\ match err with
     | None =>
         length results = length tables
         /\ Forall (fun t => exists models,
                      discoverAndBuildModels ds (Table.name t) = CbOk models)
              tables
     | Some _ => exists before, results = before ++ [None]
     end.
Proof.
  revert results. induction tables as [|t tables IH]; intros results; simpl.
  - intros [= <- <- <-]. split; [done|]. split; [done | constructor].
  - unfold mbind, M_bind. unfold buildModel at 1.
    destruct (discoverAndBuildModels ds (Table.name t))
      as [e|[|[modelName definition] models]] eqn:Hbuild; simpl; [|done|].
    + intros [= <- <- <-]. split; [done|]. by exists [].
    + destruct (mapSeries None tables (buildModel ds) w)
        as [[[err' results']|e|c] w1] eqn:Hrest; simpl; [|done..].
      intros [= <- <- <-].
      destruct (IH _ eq_refl) as [-> Hrest']. split; [done|].
      destruct err'.
      * destruct Hrest' as [before ->]. by exists (definition :: before).
      * destruct Hrest' as [Hlen Hall]. split; [simpl; by f_equal|].
        constructor; eauto.
Qed.

Lemma eachSeries_saveModel_ok (modelsPath : string) (overwrite : option bool)
    (models models' : list (option ModelDefinition)) (fs fs' : FileSystem) :
  eachSeries models (fun m => saveModel path_join modelsPath m overwrite) fs
  = (Normal (models', None), fs') ->
  length models' = length models
  /\ Forall is_Some models /\ Forall is_Some models'.
Proof.
  revert models' fs. induction models as [|m models IH]; intros models' fs; simpl.
  - intros [= <- <-]. repeat split; constructor.
  - unfold mbind, M_bind.
    destruct (saveModel path_join modelsPath m overwrite fs)
      as [[[m1 cb]|e|c] fs1] eqn:Hsave; simpl; [|done..].
    destruct cb as [e|r]; simpl; [done|].
    destruct (eachSeries models _ fs1) as [[[rest err]|e|c] fs2] eqn:Hrest;
      simpl; [|done..].
    intros [= <- -> <-]. destruct (IH _ _ Hrest) as (Hlen & Hall & Hall').
    assert (is_Some m /\ is_Some m1) as [Hm Hm1].
    { unfold saveModel in Hsave. destruct m as [m|]; [|done].
      destruct (saveModel_try path_join modelsPath overwrite (m, fs))
        as [[r'|e|c] [m' fs0]]; simplify_eq; eauto. }
    repeat split; [simpl; by f_equal | by constructor | by constructor].
Qed.

Lemma bind_Normal {S A B} (m : M S A) (f : A -> M S B) (s s' : S) (b : B) :
  (m ≫= f) s = (Normal b, s') ->
  exists a s1, m s = (Normal a, s1) /\ f a s1 = (Normal b, s').
Proof.
  unfold mbind, M_bind. destruct (m s) as [[a|e|c] s1]; [eauto|done..].
Qed.

Lemma persistModels_ok (err : option JsError)
    (models models' : list (option ModelDefinition)) (w w' : World) :
  persistModels path_join err models w = (Normal (CbOk models'), w') ->
  length models' = length models
  /\ Forall is_Some models /\ Forall is_Some models'.
Proof.
  unfold persistModels. intros H.
  apply bind_Normal in H as (self & s1 & H1 & H). injection H1 as <- <-.
  apply bind_Normal in H as (options & s1 & H1 & H). injection H1 as <- <-.
  destruct (appPath (this w)) as [root|]; [|done].
  apply bind_Normal in H as (exist & s1 & H1 & H). injection H1 as <- <-.
  apply bind_Normal in H as (made & s2 & _ & H).
  destruct made; [|done].
  apply bind_Normal in H as ([ms e] & s3 & Heach & H).
  unfold on_disk in Heach.
  destruct (eachSeries models _ (disk s2)) as [r fs1] eqn:He.
  injection Heach as -> <-. simpl in H.
  destruct e; [done|]. injection H as <- <-.
  by apply (eachSeries_saveModel_ok _ _ _ _ _ _ He).
Qed.

(** X18. A run that reports success has built every table that got through
    the filter and hands back one defined model for each, those whose file
    was skipped included; a run in which a build failed never reports
    success, although its error is not looked at. *)
Theorem discoverModels_success_one_model_per_table (w w1 w' : World)
    (ds : DataSource) (discover : Options.t -> Callback (list Table.t))
    (tables : list Table.t) (models : list (option ModelDefinition)) :
  let w2 := update_opts (set_schema (database ds)) w1 in
  let kept := surviving tables (Options.tablesList (opts w1)) in
  bindOptions path_join require w = (Normal None, w1) ->
  dataSource (this w1) = Some ds ->
  discoverModelDefinitions ds = Some discover ->
  discover (opts w2) = CbOk tables ->
  discoverModels path_join require w = (Normal (CbOk models), w') ->
  length models = length kept
  /\ Forall is_Some models
  /\ Forall (fun t => exists built,
               discoverAndBuildModels ds (Table.name t) = CbOk built) kept.
Proof.
  intros w2 kept Hbind Hds Hdiscover Htables.
  rewrite (discoverModels_discovered _ _ _ _ _ _ Hbind Hds Hdiscover).
  fold w2. rewrite Htables. unfold discovered.
  unfold mbind at 1. unfold M_bind at 1. unfold gets at 1.
  change (Options.tablesList (opts w2)) with (Options.tablesList (opts w1)).
  assert (forall w0,
    (r ← mapSeries None kept (buildModel ds);
     persistModels path_join r.1 r.2) w0 = (Normal (CbOk models), w') ->
    length models = length kept
    /\ Forall is_Some models
    /\ Forall (fun t => exists built,
                 discoverAndBuildModels ds (Table.name t) = CbOk built) kept)
    as Hrest.
  { intros w0. unfold mbind, M_bind.
    destruct (mapSeries None kept (buildModel ds) w0)
      as [[[err results]|e|c] w3] eqn:Hmap; [|done..].
    simpl. intros Hpersist.
    apply mapSeries_buildModel_inv in Hmap as [-> Hmap].
    apply persistModels_ok in Hpersist as (Hlen & Hall & Hall').
    destruct err as [e|].
    - destruct Hmap as [before ->]. apply Forall_app in Hall as [_ Hlast].
      apply Forall_cons in Hlast as [[? [=]] _].
    - destruct Hmap as [Hlen' Hbuilt]. repeat split; [congruence|done..]. }
  unfold kept in *.
  destruct (Options.tablesList (opts w1)) as [wanted|]; simpl in *; [|apply Hrest].
  unfold set_opts. unfold mbind at 1. unfold M_bind at 1. unfold modify at 1.
  destruct (0 <? length (filterTables tables wanted).2)%nat; [done|].
  apply Hrest.
Qed.
End MoreDiscoveryRun.

(** ** Saving the registry *)


Section MoreModelConfiguration.
Variable path_resolve : string -> string -> string.

(** X19. With the application set and the registry loaded,
    [saveModelConfiguration] writes the registry, entry for entry and in
    order, to [server/model-config.json] under the application, and leaves
    the discoverer as it is; without a loaded registry it throws and writes
    nothing. *)
Theorem saveModelConfiguration_writes_registry (self : Discoverer)
    (fs : FileSystem) (root : string) :
  let target := path_resolve root "server/model-config.json" in
  appPath self = Some root ->
  nonempty root = true ->
  target ∉ denied fs ->
  nodes fs !! target ≠ Some Directory ->
  saveModelConfiguration path_resolve (self, fs)
  = match modelConfig self with
    | Some config =>
        (Normal tt,
         (self, fs_put target (File (JsonText (registry_to_json config))) fs))
    | None => (Throw (Error "Model configuration not loaded."), (self, fs))
    end.
Proof.
  intros target Hroot Hne Hden Hdir. unfold saveModelConfiguration. run.
  rewrite Hroot. simpl. rewrite Hne. fold target.
  destruct (modelConfig self) as [config|]; [|done]. simpl.
  unfold writeFileSync. rewrite decide_False by done.
  destruct (nodes fs !! target) as [[|?]|]; [by destruct Hdir|reflexivity..].
Qed.

End MoreModelConfiguration.

(** ** Further instances on sample data *)

Lemma NoDup_two (a b : string) : a ≠ b -> NoDup [a; b].
Proof.
  intros Hne. apply NoDup_cons. split; [|apply NoDup_singleton].
  intros Hin. apply list_elem_of_singleton in Hin. done.
Qed.

Lemma addModel_appends_new_entry_witness :
  addModel clash with_registry
  = (Normal tt,
     set_modelConfig
       (registry ++ [("Clash", [("dataSource", JStr "db");
                                ("public", JBool false)])]) with_registry).
Proof.
  apply (addModel_appends_new_entry with_registry clash registry); reflexivity.
Defined.

Lemma addModel_keeps_other_fields_witness :
  exists config' entry',
    addModel customer with_registry
    = (Normal tt, set_modelConfig config' with_registry)
    /\ obj_keys config' = obj_keys registry
    /\ obj_get "Customer" config' = Some entry'
    /\ forall field, field ≠ "dataSource" -> field ≠ "public" ->
         obj_get field entry'
         = obj_get field [("dataSource", JStr "old"); ("public", JBool true)].
Proof.
  apply (addModel_keeps_other_fields with_registry customer registry
           [("dataSource", JStr "old"); ("public", JBool true)]); reflexivity.
Defined.


Lemma setDataSource_first_match_decides_witness :
  setDataSource "shopdb" with_app
  = (Normal tt, bind_source "shopdb" (source ["customer"] build_customer) with_app).
Proof.
  apply (setDataSource_first_match_decides "shopdb" "ShopDB"
           (source ["customer"] build_customer)
           [("memory", {| database := None; discoverModelDefinitions := None;
                          discoverAndBuildModels := build_customer |})]
           [] shop_app with_app); try reflexivity.
  intros k d Hin. apply list_elem_of_singleton in Hin. injection Hin as -> _.
  vm_compute. discriminate.
Defined.

Lemma setDataSource_binds_or_leaves_witness :
  (exists e, Throw (A:=unit) (Error "Datasource not found in application.")
             = Throw e /\ with_app = with_app)
  \/ (Throw (Error "Datasource not found in application.") = Normal tt
      /\ exists a src ds, app with_app = Some a
           /\ (src, ds) ∈ dataSources a
           /\ toLowerCase src = toLowerCase "orders"
           /\ is_Some (discoverModelDefinitions ds)
           /\ with_app = bind_source "orders" ds with_app).
Proof.
  apply (setDataSource_binds_or_leaves "orders" with_app with_app
           (Throw (Error "Datasource not found in application."))).
  vm_compute. reflexivity.
Defined.

Lemma casePropertiesDataType_needs_functions_witness :
  casePropertiesDataType customer_renamed = (Normal tt, customer_cased)
  /\ exists m', casePropertiesDataType customer_cased
       = (Throw (TypeError "Cannot read property 'toLowerCase' of undefined"), m').
Proof.
  split.
  - exact (casePropertiesDataType_needs_functions customer_renamed
             (NoDup_two "id" "firstName" ltac:(discriminate))).
  - exact (casePropertiesDataType_needs_functions customer_cased
             (NoDup_two "id" "firstName" ltac:(discriminate))).
Defined.

Lemma clash_renamed : reconcile clash = (Normal tt, (reconcile clash).2).
Proof. apply injective_projections; [vm_compute; reflexivity | reflexivity]. Defined.

Lemma reconcile_keys_are_column_names_witness :
  obj_keys (properties (reconcile clash).2) = ["fooBar"]
  /\ forall k prop, (k, prop) ∈ properties (reconcile clash).2 ->
       column_of prop = Some k.
Proof.
  split; [reflexivity|].
  apply (reconcile_keys_are_column_names clash (reconcile clash).2).
  - apply NoDup_two. discriminate.
  - apply clash_renamed.
Defined.

Lemma reconcile_idempotent_witness :
  reconcile (reconcile clash).2 = (Normal tt, (reconcile clash).2).
Proof.
  apply (reconcile_idempotent clash (reconcile clash).2).
  - apply NoDup_two. discriminate.
  - apply clash_renamed.
Defined.

(** The first save of [customer] to an empty disk. *)
Lemma customer_first_save :
  saveModel posix_join "models" (Some customer) None empty_disk
  = (Normal (Some customer_cased, CbOk (Some (model_to_json customer_cased))),
     disk_with "models/Customer.json" (JsonText (model_to_json customer_cased))).
Proof. vm_compute. reflexivity. Defined.

Lemma saveModel_creates_new_file_witness :
  saveModel posix_join "models" (Some customer) (Some false) empty_disk
  = (Normal (Some customer_cased, CbOk (Some (model_to_json customer_cased))),
     fs_put "models/Customer.json"
       (File (JsonText (model_to_json customer_cased))) empty_disk).
Proof.
  apply (saveModel_creates_new_file posix_join "models" customer
           customer_renamed customer_cased (Some false) empty_disk).
  - vm_compute. reflexivity.
  - vm_compute. reflexivity.
  - reflexivity.
  - apply not_elem_of_empty.
Defined.

Lemma saveModel_again_changes_nothing_witness :
  let fs1 :=
    disk_with "models/Customer.json" (JsonText (model_to_json customer_cased)) in
  saveModel posix_join "models" (Some customer) (Some true) fs1
  = (Normal (Some customer_cased, CbOk (Some (model_to_json customer_cased))),
     fs1).
Proof.
  intros fs1.
  apply (saveModel_again_changes_nothing posix_join "models" customer None
           empty_disk fs1 (Some customer_cased) (model_to_json customer_cased)).
  apply customer_first_save.
Defined.

Lemma saveModel_written_object_fails_again_witness :
  let fs1 :=
    disk_with "models/Customer.json" (JsonText (model_to_json customer_cased)) in
  saveModel posix_join "models" (Some customer_cased) (Some true) fs1
  = (Normal (Some customer_cased,
             CbErr (TypeError "Cannot read property 'toLowerCase' of undefined")),
     fs1).
Proof.
  intros fs1.
  apply (saveModel_written_object_fails_again posix_join "models" customer
           customer_cased None empty_disk fs1 (model_to_json customer_cased)).
  - apply NoDup_two. discriminate.
  - discriminate.
  - apply customer_first_save.
Defined.

Lemma saveModel_names_file_after_table_witness :
  name payment_cased = "PaymentMethod"
  /\ disk_with "models/PaymentMethod.json" (JsonText (model_to_json payment_cased))
     = fs_put "models/PaymentMethod.json"
         (File (JsonText (model_to_json payment_cased))) empty_disk
  /\ (nodes empty_disk !! "models/PaymentMethod.json" = None ->
      model_to_json payment_cased = model_to_json payment_cased).
Proof.
  apply (saveModel_names_file_after_table posix_join "models" payment
           payment_cased None empty_disk
           (disk_with "models/PaymentMethod.json"
              (JsonText (model_to_json payment_cased)))
           (model_to_json payment_cased)
           {| table := Some "PaymentMethod";
              tableAttrs := [("schema", JStr "shop")] |} "PaymentMethod").
  - apply NoDup_singleton.
  - reflexivity.
  - reflexivity.
  - reflexivity.
  - vm_compute. reflexivity.
Defined.

Lemma discoverModels_connector_error_witness :
  let w := bound_to failing_source None empty_disk in
  discoverModels posix_join no_app w
  = (Normal (CbErr (Error "access denied")),
     update_opts (set_schema (Some "shop")) w).
Proof.
  intros w.
  apply (discoverModels_connector_error posix_join no_app w w failing_source
           (fun _ => CbErr (Error "access denied")) (Error "access denied"));
    reflexivity.
Defined.

Lemma persistModels_folder_failure_witness :
  let w := bound_to (source ["customer"] build_customer) None locked_disk in
  persistModels posix_join None [Some customer] w
  = (Normal (CbErr (Error "Unable to create models folder")), w).
Proof.
  intros w.
  apply (persistModels_folder_failure posix_join None [Some customer] w "app").
  - reflexivity.
  - reflexivity.
  - vm_compute. reflexivity.
Defined.

Lemma discoverModels_success_one_model_per_table_witness :
  let ds := source ["customer"] build_customer in
  length [Some customer_cased] = length [Table.mk "customer" (Some "shop")]
  /\ Forall is_Some [Some customer_cased]
  /\ Forall (fun t => exists built,
               discoverAndBuildModels ds (Table.name t) = CbOk built)
       [Table.mk "customer" (Some "shop")].
Proof.
  intros ds.
  set (w := bound_to ds None empty_disk).
  apply (discoverModels_success_one_model_per_table posix_join no_app w w
           (discoverModels posix_join no_app w).2 ds
           (fun _ => CbOk [Table.mk "customer" (Some "shop")])
           [Table.mk "customer" (Some "shop")] [Some customer_cased]);
    reflexivity.
Defined.

Lemma saveModelConfiguration_writes_registry_witness :
  saveModelConfiguration posix_join (with_registry, empty_disk)
  = (Normal tt,
     (with_registry,
      fs_put "app/server/model-config.json"
        (File (JsonText (registry_to_json registry))) empty_disk)).
Proof.
  apply (saveModelConfiguration_writes_registry posix_join with_registry
           empty_disk "app").
  - reflexivity.
  - reflexivity.
  - apply not_elem_of_empty.
  - discriminate.
Defined.

